(** * OpenSim Ligament and Reporter: a shallow embedding

    The force element of [OpenSim/Simulation/Model/Ligament.cpp] and the
    sampled reporter declared in [OpenSim/Simulation/Reporter.h].

    The C++ methods are translated once, over an interface [DoubleOps] of the
    operations the code performs on [double].  Two instances are given:

    - [binary64]: IEEE 754 double precision (Rocq's primitive floats), the
      arithmetic the compiled code runs; every definition evaluates on it;
    - [exact]: the real numbers, in which the identities that binary64
      satisfies only up to rounding (linear stiffness, proportional
      rescaling) are stated beside their binary64 form. *)

From Stdlib Require Import ZArith Lia Reals Lra Floats Uint63.
From Stdlib Require Import List Sorted Bool String.
Import ListNotations.


(** ** Arithmetic on [double] *)

(** The operations of C++ [double] that the two source files use.  [dlit m k]
    is the decimal literal [m * 10^-k] (so [dlit 998 3] is [0.998]); [dlt] and
    [dle] are [<] and [<=] ([a > b] is [dlt b a], [a >= b] is [dle b a]). *)
Class DoubleOps (D : Type) : Type := {
  dlit : Z -> nat -> D;
  dadd : D -> D -> D;
  dsub : D -> D -> D;
  dmul : D -> D -> D;
  ddiv : D -> D -> D;
  dle : D -> D -> bool;
  dlt : D -> D -> bool;
  disnan : D -> bool
}.

(** The literal [0.0] (also what the integer literal [0] converts to). *)
Definition d0 {D} `{DoubleOps D} : D := dlit 0 0.

(** An integer of magnitude below 2^53 as a binary64 value (exact). *)
Definition float_of_Z (z : Z) : float :=
  let a := PrimFloat.of_uint63 (Uint63.of_Z (Z.abs z)) in
  if (z <? 0)%Z then PrimFloat.opp a else a.

(** A decimal literal is read as the binary64 value nearest to it: the
    correctly rounded quotient of two exactly representable integers. *)
Definition float_lit (m : Z) (k : nat) : float :=
  PrimFloat.div (float_of_Z m) (float_of_Z (10 ^ Z.of_nat k)).

#[export] Instance binary64 : DoubleOps float := {
  dlit := float_lit;
  dadd := PrimFloat.add;
  dsub := PrimFloat.sub;
  dmul := PrimFloat.mul;
  ddiv := PrimFloat.div;
  dle := PrimFloat.leb;
  dlt := PrimFloat.ltb;
  disnan := PrimFloat.is_nan
}.

Definition Rleb (x y : R) : bool := if Rle_dec x y then true else false.
Definition Rltb (x y : R) : bool := if Rlt_dec x y then true else false.

(** Exact arithmetic: no rounding, no infinities, no NaN. *)
#[export] Instance exact : DoubleOps R := {
  dlit := fun m k => (IZR m / 10 ^ k)%R;
  dadd := Rplus;
  dsub := Rminus;
  dmul := Rmult;
  ddiv := Rdiv;
  dle := Rleb;
  dlt := Rltb;
  disnan := fun _ => false
}.

(** ** Data model *)

Section DataModel.

Context {D : Type} {ops : DoubleOps D}.

(** [SimTK::State], [OpenSim::Body], [ScaleSet], [Model] and the two output
    vectors of [computeForce] are opaque to the two source files. *)
Context {State Body ScaleSet Model BodyForces GeneralizedForces : Type}.

(** [SimTK::Vec3], with the product [double * Vec3] used by [computeForce]. *)
Record Vec3 : Type := mkVec3 { vx : D; vy : D; vz : D }.

Definition scaleVec3 (a : D) (v : Vec3) : Vec3 :=
  mkVec3 (dmul a (vx v)) (dmul a (vy v)) (dmul a (vz v)).

(** [PointForceDirection]: a point of a body and the direction of the force
    applied there. *)
Record PointForceDirection : Type := mkPFD {
  pfd_body : Body;
  pfd_point : Vec3;
  pfd_direction : Vec3
}.

(** [OpenSim::Function]: the curves [set_force_length_curve] receives.  The
    constructor arguments are kept as the source passes them; any other
    subclass is given by its [calcValue]. *)
Inductive Function : Type :=
| SimmSpline (n : Z) (x y : list D)
| LinearFunction (slope intercept : D)
| OtherFunction (calc : D -> D).

(** Who owns a path ([GeometryPath::setOwner(this)]). *)
Variant OwnerRef : Type := ThisLigament.

(** Modelled from the spec: GeometryPath (GeometryPath.h is not among the
    sources).  The path supplies its current length and its decomposition into
    point force directions at a state, and holds the pre-scale length, a
    scratch value written before scaling and cleared after. *)
Record GeometryPath : Type := mkGeometryPath {
  path_getLength : State -> D;
  path_getPointForceDirections : State -> list PointForceDirection;
  path_preScaleLength : D;
  path_owner : option OwnerRef
}.

Definition getPreScaleLength (path : GeometryPath) (s : State) : D :=
  path_preScaleLength path.

Definition setPreScaleLength (path : GeometryPath) (s : State) (len : D)
  : GeometryPath :=
  mkGeometryPath (path_getLength path) (path_getPointForceDirections path)
    len (path_owner path).

Definition setOwner (path : GeometryPath) (o : OwnerRef) : GeometryPath :=
  mkGeometryPath (path_getLength path) (path_getPointForceDirections path)
    (path_preScaleLength path) (Some o).

(** The sub-components a ligament registers with [includeAsSubComponent]. *)
Variant SubComponentRef : Type := Ref_GeometryPath.

(** A [Ligament] object: its four properties, and from [ModelComponent] the
    owning model [_model] (NULL until connected), the registered
    sub-components and the authors string. *)
Record Ligament : Type := mkLigament {
  prop_GeometryPath : GeometryPath;
  prop_resting_length : D;
  prop_pcsa_force : D;
  prop_force_length_curve : Function;
  _model : option Model;
  subComponents : list SubComponentRef;
  authors : string
}.

(** The collaborators whose code is outside the two source files. *)
Class Collaborators : Type := {
  (** [SimmSpline::calcValue] of the spline built from [n] control points. *)
  SimmSpline_calcValue : Z -> list D -> list D -> D -> D;
  (** [GeometryPath::preScale], [scale] and [postScale]. *)
  GeometryPath_preScale : GeometryPath -> State -> ScaleSet -> GeometryPath;
  GeometryPath_scale : GeometryPath -> State -> ScaleSet -> GeometryPath;
  GeometryPath_postScale : GeometryPath -> State -> ScaleSet -> GeometryPath;
  (** [Super::connectToModel], the generic connection step. *)
  Super_connectToModel : Ligament -> Model -> Ligament;
  (** [Force::applyForceToPoint(s, body, point, force, bodyForces)]. *)
  applyForceToPoint :
    State -> Body -> Vec3 -> Vec3 -> BodyForces -> BodyForces
}.

End DataModel.

Arguments Vec3 : clear implicits.
Arguments PointForceDirection : clear implicits.
Arguments Function : clear implicits.
Arguments GeometryPath : clear implicits.
Arguments Ligament : clear implicits.
Arguments Collaborators : clear implicits.

(** ** Ligament.cpp *)

Section LigamentOps.

Context {D : Type} {ops : DoubleOps D}.
Context {State Body ScaleSet Model BodyForces GeneralizedForces : Type}.
Context {ext : Collaborators D State Body ScaleSet Model BodyForces}.

Local Abbreviation Path := (GeometryPath D State Body).
Local Abbreviation Lig := (Ligament D State Body Model).

(** Modelled from the spec: LinearFunction::calcValue (LinearFunction.h is
    not among the sources), the pure-linear curve [slope * x + intercept]
    built by [LinearFunction(slope, intercept)]; this is the reading under
    which [setLinearStiffness] yields the force [f = K * (l - l0)] that its
    comment announces. *)
Definition LinearFunction_calcValue (slope intercept x : D) : D :=
  dadd (dmul slope x) intercept.

(** [Function::calcValue(SimTK::Vector(1, x))], the virtual call on the curve
    property, on a one-element vector. *)
Definition calcValue (f : Function D) (x : D) : D :=
  match f with
  | SimmSpline n xs ys => SimmSpline_calcValue n xs ys x
  | LinearFunction slope intercept => LinearFunction_calcValue slope intercept x
  | OtherFunction calc => calc x
  end.

(** Property accessors ([get_], [upd_] and [set_] of the property macros). *)
Definition get_GeometryPath (self : Lig) : Path := prop_GeometryPath self.
Definition get_resting_length (self : Lig) : D := prop_resting_length self.
Definition get_pcsa_force (self : Lig) : D := prop_pcsa_force self.
Definition getForceLengthCurve (self : Lig) : Function D :=
  prop_force_length_curve self.

Definition set_GeometryPath (self : Lig) (p : Path) : Lig :=
  mkLigament p (prop_resting_length self) (prop_pcsa_force self)
    (prop_force_length_curve self) (_model self) (subComponents self)
    (authors self).

Definition set_resting_length (self : Lig) (v : D) : Lig :=
  mkLigament (prop_GeometryPath self) v (prop_pcsa_force self)
    (prop_force_length_curve self) (_model self) (subComponents self)
    (authors self).

Definition set_pcsa_force (self : Lig) (v : D) : Lig :=
  mkLigament (prop_GeometryPath self) (prop_resting_length self) v
    (prop_force_length_curve self) (_model self) (subComponents self)
    (authors self).

Definition set_force_length_curve (self : Lig) (f : Function D) : Lig :=
  mkLigament (prop_GeometryPath self) (prop_resting_length self)
    (prop_pcsa_force self) f (_model self) (subComponents self)
    (authors self).

Definition includeAsSubComponent (self : Lig) (c : SubComponentRef) : Lig :=
  mkLigament (prop_GeometryPath self) (prop_resting_length self)
    (prop_pcsa_force self) (prop_force_length_curve self) (_model self)
    (subComponents self ++ [c]) (authors self).

(** The control points of the default force-length curve. *)
Definition forceLengthCurvePoints : Z := 13.

Definition forceLengthCurveX : list D :=
  [ dlit (-5) 0; dlit 998 3; dlit 999 3; dlit 1 0; dlit 11 1; dlit 12 1;
    dlit 13 1; dlit 14 1; dlit 15 1; dlit 16 1; dlit 1601 3; dlit 1602 3;
    dlit 5 0 ].

Definition forceLengthCurveY : list D :=
  [ dlit 0 0; dlit 0 0; dlit 0 0; dlit 0 0; dlit 35 3; dlit 12 2;
    dlit 26 2; dlit 55 2; dlit 117 2; dlit 2 0; dlit 2 0; dlit 2 0;
    dlit 2 0 ].

(** [Ligament::Ligament()], that is [constructProperties()] on a fresh
    object; [path0] is the default-constructed [GeometryPath()]. *)
Definition constructProperties (path0 : Path) : Lig :=
  mkLigament path0 (dlit 0 0) (dlit 0 0)
    (SimmSpline forceLengthCurvePoints forceLengthCurveX forceLengthCurveY)
    None [] "Peter Loan".

(** What a call that may stop at an [assert] gives. *)
Inductive Outcome (A : Type) : Type :=
| Returned (a : A)
| AssertionFailed (expression : string).

Arguments Returned {A} a.
Arguments AssertionFailed {A} expression.

(** The [assert] macro of [<cassert>]: in a build that defines [NDEBUG] it
    expands to nothing; otherwise a false condition stops the program with
    the asserted expression as diagnostic.  [None] is "carry on". *)
Definition cassert (NDEBUG condition : bool) (expression : string)
  : option string :=
  if NDEBUG then None
  else if condition then None else Some expression.

(** [Ligament::connectToModel], in a build with or without [NDEBUG].
    [restingLength] is a reference to the property, read when the assertion
    is evaluated. *)
Definition connectToModel (NDEBUG : bool) (self : Lig) (aModel : Model)
  : Outcome Lig :=
  let self1 := includeAsSubComponent self Ref_GeometryPath in
  let self2 := Super_connectToModel self1 aModel in
  match _model self2 with
  | None => Returned self2
  | Some _ =>
      match cassert NDEBUG (dlt d0 (get_resting_length self2))
              "restingLength > 0.0" with
      | Some expression => AssertionFailed expression
      | None =>
          Returned
            (set_GeometryPath self2
               (setOwner (get_GeometryPath self2) ThisLigament))
      end
  end.

Definition getLength (self : Lig) (s : State) : D :=
  path_getLength (get_GeometryPath self) s.

Definition setRestingLength (self : Lig) (aRestingLength : D) : Lig * bool :=
  (set_resting_length self aRestingLength, true).

Definition setMaxIsometricForce (self : Lig) (aMaxIsometricForce : D)
  : Lig * bool :=
  (set_pcsa_force self aMaxIsometricForce, true).

Definition setForceLengthCurve (self : Lig) (aForceLengthCurve : Function D)
  : Lig * bool :=
  (set_force_length_curve self aForceLengthCurve, true).

Definition setLinearStiffness (self : Lig) (aStiffness aRestLength : D) : Lig :=
  let linearFunc := LinearFunction aRestLength d0 in
  let self1 := set_force_length_curve self linearFunc in
  let self2 := set_resting_length self1 aRestLength in
  set_pcsa_force self2 aStiffness.

Definition preScale (self : Lig) (s : State) (aScaleSet : ScaleSet) : Lig :=
  set_GeometryPath self
    (GeometryPath_preScale (get_GeometryPath self) s aScaleSet).

Definition scale (self : Lig) (s : State) (aScaleSet : ScaleSet) : Lig :=
  set_GeometryPath self
    (GeometryPath_scale (get_GeometryPath self) s aScaleSet).

Definition postScale (self : Lig) (s : State) (aScaleSet : ScaleSet) : Lig :=
  let path := GeometryPath_postScale (get_GeometryPath self) s aScaleSet in
  let restingLength := get_resting_length self in
  if dlt d0 (getPreScaleLength path s) then
    let scaleFactor :=
      ddiv (path_getLength path s) (getPreScaleLength path s) in
    set_GeometryPath
      (set_resting_length self (dmul restingLength scaleFactor))
      (setPreScaleLength path s d0)
  else set_GeometryPath self path.

(** Everything a call of [computeForce] could reach: the element, the state
    and the two output vectors. *)
Record ForceWorld : Type := mkForceWorld {
  w_self : Lig;
  w_state : State;
  w_bodyForces : BodyForces;
  w_generalizedForces : GeneralizedForces
}.

(** The loop over [PFDs] of [computeForce]. *)
Definition applyForces (s : State) (force : D)
    (PFDs : list (PointForceDirection D Body)) (bodyForces : BodyForces)
  : BodyForces :=
  fold_left
    (fun bf pfd =>
       applyForceToPoint s (pfd_body pfd) (pfd_point pfd)
         (scaleVec3 force (pfd_direction pfd)) bf)
    PFDs bodyForces.

Definition computeForce (w : ForceWorld) : ForceWorld :=
  let self := w_self w in
  let s := w_state w in
  let path := get_GeometryPath self in
  let restingLength := get_resting_length self in
  let pcsaForce := get_pcsa_force self in
  if dle (path_getLength path s) restingLength then w
  else
    let strain :=
      ddiv (dsub (path_getLength path s) restingLength) restingLength in
    let force := dmul (calcValue (getForceLengthCurve self) strain) pcsaForce in
    let PFDs := path_getPointForceDirections path s in
    mkForceWorld self s (applyForces s force PFDs (w_bodyForces w))
      (w_generalizedForces w).

Definition getTension (self : Lig) (s : State) : D :=
  let path := get_GeometryPath self in
  let restingLength := get_resting_length self in
  let pcsaForce := get_pcsa_force self in
  if dle (path_getLength path s) restingLength then d0
  else
    let strain :=
      ddiv (dsub (path_getLength path s) restingLength) restingLength in
    dmul (calcValue (getForceLengthCurve self) strain) pcsaForce.

End LigamentOps.

Arguments Returned {A} a.
Arguments AssertionFailed {A} expression.
Arguments ForceWorld : clear implicits.

(** ** Reporter.h *)

Section ReporterOps.

Context {D : Type} {ops : DoubleOps D}.
Context {State : Type}.

(** [s.getTime()] and [Reporter::isDisabled(s)]: the time of a state and the
    state-scoped disabled flag. *)
Variable getTime : State -> D.
Variable isDisabled : State -> bool.

(** A [Reporter] object: the two properties and the [_reportTable] of the
    header (rows in the order they were appended), the bound Inputs (each
    gives its value at a state) and the time of the last recorded row. *)
Record Reporter : Type := mkReporter {
  prop_is_disabled : bool;
  prop_report_time_iterval : D;
  inputs : list (State -> D);
  lastReportTime : D;
  _reportTable : list (D * list D)
}.

(** Modelled from the spec: the decision taken in Reporter::report (the
    header only declares [report]): record when the reporter is not disabled
    and the interval is negative or NaN, or at least the interval has elapsed
    since the last recorded row. *)
Definition shouldReport (r : Reporter) (s : State) : bool :=
  negb (isDisabled s)
  && (dlt (prop_report_time_iterval r) d0
      || disnan (prop_report_time_iterval r)
      || dle (prop_report_time_iterval r)
           (dsub (getTime s) (lastReportTime r))).

(** Modelled from the spec: Reporter::implementReport (only declared in the
    header): pull the value of every bound Input at the state, append one row
    [(currentTime, values)] and update [lastReportTime]. *)
Definition implementReport (r : Reporter) (s : State) : Reporter :=
  mkReporter (prop_is_disabled r) (prop_report_time_iterval r) (inputs r)
    (getTime s)
    (_reportTable r ++ [(getTime s, map (fun input => input s) (inputs r))]).

(** Modelled from the spec: Reporter::report (only declared in the header),
    the entry point for a candidate reporting event. *)
Definition report (r : Reporter) (s : State) : Reporter :=
  if shouldReport r s then implementReport r s else r.

Definition getReport (r : Reporter) : list (D * list D) := _reportTable r.

End ReporterOps.

Arguments Reporter : clear implicits.

(** ** A test bench

    Stand-ins for the collaborators, on which the model runs: a state is the
    value of one coordinate, the path is a straight segment whose length is
    that coordinate, a scale set is one uniform factor, and the body-force
    accumulator is the list of the forces applied so far. *)

Section Bench.

Context {D : Type} {ops : DoubleOps D}.

(** Piecewise-linear interpolation through the control points, constant
    outside them: the stand-in for the spline. *)
Fixpoint interpolate (xs ys : list D) (x : D) : D :=
  match xs, ys with
  | x0 :: ((x1 :: _) as xs'), y0 :: ((y1 :: _) as ys') =>
      if dle x x0 then y0
      else if dle x x1
           then dadd y0 (ddiv (dmul (dsub y1 y0) (dsub x x0)) (dsub x1 x0))
           else interpolate xs' ys' x
  | _, y0 :: _ => y0
  | _, [] => d0
  end.

Definition BenchForces : Type := list (nat * Vec3 D * Vec3 D).

Definition benchPath (length : D -> D) : GeometryPath D D nat :=
  mkGeometryPath length
    (fun _ =>
       [ mkPFD 0%nat (mkVec3 d0 d0 d0) (mkVec3 (dlit (-1) 0) d0 d0);
         mkPFD 1%nat (mkVec3 d0 d0 d0) (mkVec3 (dlit 1 0) d0 d0) ])
    d0 None.

(** Modelled from the spec: the collaborators on the bench.  The path's
    [preScale] records its current length in the pre-scale slot, [scale]
    applies the factor to the geometry, [postScale] has nothing left to do;
    the generic connection step captures the owning model; applying a force
    to a point appends it to the accumulator. *)
Definition bench : Collaborators D D nat D nat BenchForces := {|
  SimmSpline_calcValue := fun _ xs ys x => interpolate xs ys x;
  GeometryPath_preScale := fun path s _ =>
    setPreScaleLength path s (path_getLength path s);
  GeometryPath_scale := fun path _ k =>
    mkGeometryPath (fun s => dmul k (path_getLength path s))
      (path_getPointForceDirections path) (path_preScaleLength path)
      (path_owner path);
  GeometryPath_postScale := fun path _ _ => path;
  Super_connectToModel := fun self aModel =>
    mkLigament (prop_GeometryPath self) (prop_resting_length self)
      (prop_pcsa_force self) (prop_force_length_curve self) (Some aModel)
      (subComponents self) (authors self);
  applyForceToPoint := fun _ b p f bodyForces => bodyForces ++ [(b, p, f)]
|}.

(** The bench at registration time: the generic step leaves [_model] NULL. *)
Definition benchRegistering : Collaborators D D nat D nat BenchForces := {|
  SimmSpline_calcValue := fun _ xs ys x => interpolate xs ys x;
  GeometryPath_preScale := @GeometryPath_preScale _ _ _ _ _ _ bench;
  GeometryPath_scale := @GeometryPath_scale _ _ _ _ _ _ bench;
  GeometryPath_postScale := fun path _ _ => path;
  Super_connectToModel := fun self _ => self;
  applyForceToPoint := @applyForceToPoint _ _ _ _ _ _ bench
|}.

(** A ligament on the straight path with the given configuration. *)
Definition benchLigament (restingLength pcsaForce : D) (curve : Function D)
  : Ligament D D nat nat :=
  mkLigament (benchPath (fun s => s)) restingLength pcsaForce curve None []
    "Peter Loan".

(** The world of a [computeForce] call on the bench: nothing applied yet. *)
Definition benchWorld (self : Ligament D D nat nat) (s : D)
  : ForceWorld D D nat nat BenchForces (list D) :=
  mkForceWorld self s [] [].

(** A reporter bound to one Input, the coordinate itself; a bench state is
    its own time and never disables the reporter. *)
Definition benchReporter (interval lastTime : D) : Reporter D D :=
  mkReporter false interval [fun s => s] lastTime [].

Definition benchReport (r : Reporter D D) (s : D) : Reporter D D :=
  report (fun t => t) (fun _ => false) r s.

End Bench.

(** ** Notions used in the statements *)

Section Notions.

Context {D : Type} {ops : DoubleOps D}.
Context {State Body ScaleSet Model BodyForces : Type}.
Context {ext : Collaborators D State Body ScaleSet Model BodyForces}.

(** The strain both methods form once the slack test has failed. *)
Definition strainOf (self : Ligament D State Body Model) (s : State) : D :=
  ddiv (dsub (getLength self s) (get_resting_length self))
    (get_resting_length self).

(** The structural wiring of [connectToModel]: the path is registered as a
    sub-component, then the generic connection step runs. *)
Definition wired (self : Ligament D State Body Model) (aModel : Model)
  : Ligament D State Body Model :=
  Super_connectToModel (includeAsSubComponent self Ref_GeometryPath) aModel.

(** The forces [computeForce] hands to [applyForceToPoint] for a scalar
    [force]: one per point force direction, in path order. *)
Definition appliedForces (force : D) (PFDs : list (PointForceDirection D Body))
  : list (Body * Vec3 D * Vec3 D) :=
  map
    (fun pfd =>
       (pfd_body pfd, pfd_point pfd, scaleVec3 force (pfd_direction pfd)))
    PFDs.

(** The control points of the default curve, as pairs. *)
Definition controlPoints : list (D * D) :=
  combine forceLengthCurveX forceLengthCurveY.

(** The slopes of the chords between consecutive control points. *)
Fixpoint chordSlopes (xs ys : list D) : list D :=
  match xs, ys with
  | x0 :: ((x1 :: _) as xs'), y0 :: ((y1 :: _) as ys') =>
      ddiv (dsub y1 y0) (dsub x1 x0) :: chordSlopes xs' ys'
  | _, _ => []
  end.

End Notions.

(** A binary64 value, as the specification of the primitive floats sees it,
    that is a zero, positive and finite, or plus infinity. *)
Definition SFnonneg (x : spec_float) : Prop :=
  match x with
  | S754_zero _ => True
  | S754_infinity s | S754_finite s _ _ => s = false
  | S754_nan => False
  end.

(** * Properties *)

(** ** Control flow of the force computation, in any arithmetic *)

Section LigamentFacts.

Context {D : Type} {ops : DoubleOps D}.
Context {State Body ScaleSet Model BodyForces GeneralizedForces : Type}.
Context {ext : Collaborators D State Body ScaleSet Model BodyForces}.

Local Abbreviation Lig := (Ligament D State Body Model).
Local Abbreviation World :=
  (ForceWorld D State Body Model BodyForces GeneralizedForces).

Lemma getTension_slack (self : Lig) (s : State) :
  dle (getLength self s) (get_resting_length self) = true ->
  getTension self s = d0.
Proof.
  unfold getTension, getLength. intros Hslack. now rewrite Hslack.
Qed.

Lemma getTension_taut (self : Lig) (s : State) :
  dle (getLength self s) (get_resting_length self) = false ->
  getTension self s =
  dmul (calcValue (getForceLengthCurve self) (strainOf self s))
    (get_pcsa_force self).
Proof.
  unfold getTension, strainOf, getLength. intros Htaut. now rewrite Htaut.
Qed.

Lemma computeForce_slack (w : World) :
  dle (getLength (w_self w) (w_state w)) (get_resting_length (w_self w)) = true ->
  computeForce w = w.
Proof.
  unfold computeForce, getLength. intros Hslack. now rewrite Hslack.
Qed.

Lemma computeForce_taut (w : World) :
  dle (getLength (w_self w) (w_state w)) (get_resting_length (w_self w)) = false ->
  computeForce w =
  mkForceWorld (w_self w) (w_state w)
    (applyForces (w_state w)
       (dmul (calcValue (getForceLengthCurve (w_self w))
                (strainOf (w_self w) (w_state w)))
          (get_pcsa_force (w_self w)))
       (path_getPointForceDirections (get_GeometryPath (w_self w)) (w_state w))
       (w_bodyForces w))
    (w_generalizedForces w).
Proof.
  unfold computeForce, strainOf, getLength. intros Htaut. now rewrite Htaut.
Qed.

Lemma postScale_rescaled (self : Lig) (s : State) (sc : ScaleSet) :
  let path := GeometryPath_postScale (get_GeometryPath self) s sc in
  dlt d0 (getPreScaleLength path s) = true ->
  postScale self s sc =
  set_GeometryPath
    (set_resting_length self
       (dmul (get_resting_length self)
          (ddiv (path_getLength path s) (getPreScaleLength path s))))
    (setPreScaleLength path s d0).
Proof.
  intros path Hpre. unfold postScale. fold path. now rewrite Hpre.
Qed.

Lemma postScale_untouched (self : Lig) (s : State) (sc : ScaleSet) :
  let path := GeometryPath_postScale (get_GeometryPath self) s sc in
  dlt d0 (getPreScaleLength path s) = false ->
  postScale self s sc = set_GeometryPath self path.
Proof.
  intros path Hpre. unfold postScale. fold path. now rewrite Hpre.
Qed.

(** C1. When the path length is at most the resting length (itself positive),
    [computeForce] returns with the body-force accumulator, and everything
    else, as it received them, and [getTension] returns exactly [0]. *)
Theorem slack_gives_no_force (w : World) :
  dlt d0 (get_resting_length (w_self w)) = true ->
  dle (getLength (w_self w) (w_state w)) (get_resting_length (w_self w)) = true ->
  computeForce w = w
  /\ w_bodyForces (computeForce w) = w_bodyForces w
  /\ getTension (w_self w) (w_state w) = d0.
Proof.
  intros _ Hslack.
  pose proof (computeForce_slack w Hslack) as Hsame.
  split; [exact Hsame|]. split.
  - now rewrite Hsame.
  - now apply getTension_slack.
Qed.

(** C7. The scalar that [computeForce] multiplies into every path direction
    and hands to [applyForceToPoint] is [getTension] at the same state: past
    the shared slack test, [computeForce] is the distribution of
    [getTension] over the point force directions, and nothing else. *)
Theorem computeForce_distributes_getTension (w : World) :
  computeForce w =
  if dle (getLength (w_self w) (w_state w)) (get_resting_length (w_self w))
  then w
  else
    mkForceWorld (w_self w) (w_state w)
      (fold_left
         (fun bf pfd =>
            applyForceToPoint (w_state w) (pfd_body pfd) (pfd_point pfd)
              (scaleVec3 (getTension (w_self w) (w_state w))
                 (pfd_direction pfd)) bf)
         (path_getPointForceDirections (get_GeometryPath (w_self w))
            (w_state w))
         (w_bodyForces w))
      (w_generalizedForces w).
Proof.
  destruct (dle (getLength (w_self w) (w_state w))
              (get_resting_length (w_self w))) eqn:Hguard.
  - now apply computeForce_slack.
  - rewrite (computeForce_taut w Hguard), (getTension_taut _ _ Hguard).
    reflexivity.
Qed.

(** C8. [computeForce] leaves the simulation state, the element (resting
    length, force scale, curve and the rest of it) and the generalized-forces
    vector as they were: only the body-force accumulator can differ. *)
Theorem computeForce_frame (w : World) :
  w_state (computeForce w) = w_state w
  /\ w_self (computeForce w) = w_self w
  /\ get_resting_length (w_self (computeForce w)) = get_resting_length (w_self w)
  /\ get_pcsa_force (w_self (computeForce w)) = get_pcsa_force (w_self w)
  /\ getForceLengthCurve (w_self (computeForce w)) = getForceLengthCurve (w_self w)
  /\ w_generalizedForces (computeForce w) = w_generalizedForces w.
Proof.
  destruct (dle (getLength (w_self w) (w_state w))
              (get_resting_length (w_self w))) eqn:Hguard.
  - rewrite (computeForce_slack w Hguard). repeat split.
  - rewrite (computeForce_taut w Hguard). cbn [w_state w_self w_generalizedForces].
    repeat split.
Qed.

End LigamentFacts.

(** ** Connecting to the model *)

Section ConnectFacts.

Context {D : Type} {ops : DoubleOps D}.
Context {State Body ScaleSet Model BodyForces : Type}.
Context {ext : Collaborators D State Body ScaleSet Model BodyForces}.

Local Abbreviation Lig := (Ligament D State Body Model).

Lemma includeAsSubComponent_registers (self : Lig) (c : SubComponentRef) :
  In c (subComponents (includeAsSubComponent self c)).
Proof.
  unfold includeAsSubComponent. cbn [subComponents].
  apply in_or_app. right. now left.
Qed.

Lemma connectToModel_valid (NDEBUG : bool) (self : Lig) (aModel m : Model) :
  _model (wired self aModel) = Some m ->
  dlt d0 (get_resting_length (wired self aModel)) = true ->
  connectToModel NDEBUG self aModel =
  Returned
    (set_GeometryPath (wired self aModel)
       (setOwner (get_GeometryPath (wired self aModel)) ThisLigament)).
Proof.
  unfold connectToModel, cassert, wired. intros Hm Hpos. rewrite Hm, Hpos.
  now destruct NDEBUG.
Qed.

(** C5, as the code has it.  With no owning model after the generic step,
    [connectToModel] returns the wired element whatever its resting length
    is.  With an owning model and a resting length that is not greater than
    zero (zero, negative or NaN), a build with assertions enabled stops at
    the assertion with its expression as diagnostic and returns no element;
    a build that defines [NDEBUG] has no check left and returns the element
    with its path owned and its resting length as it was. *)
Theorem connectToModel_checks_resting_length
    (NDEBUG : bool) (self : Lig) (aModel : Model) :
  (_model (wired self aModel) = None ->
   connectToModel NDEBUG self aModel = Returned (wired self aModel))
  /\ (forall m : Model,
        _model (wired self aModel) = Some m ->
        dlt d0 (get_resting_length (wired self aModel)) = false ->
        connectToModel NDEBUG self aModel =
        if NDEBUG
        then
          Returned
            (set_GeometryPath (wired self aModel)
               (setOwner (get_GeometryPath (wired self aModel))
                  ThisLigament))
        else AssertionFailed "restingLength > 0.0").
Proof.
  unfold connectToModel, cassert, wired. split.
  - intros Hnull. now rewrite Hnull.
  - intros m Hm Hbad. rewrite Hm, Hbad. now destruct NDEBUG.
Qed.

End ConnectFacts.

(** ** Reporter gating *)

Section ReporterFacts.

Context {D : Type} {ops : DoubleOps D}.
Context {State : Type}.
Variable getTime : State -> D.
Variable isDisabled : State -> bool.

Local Abbreviation Rep := (Reporter D State).

Lemma report_yes (r : Rep) (s : State) :
  shouldReport getTime isDisabled r s = true ->
  report getTime isDisabled r s = implementReport getTime r s.
Proof. unfold report. intros Hgo. now rewrite Hgo. Qed.

Lemma report_no (r : Rep) (s : State) :
  shouldReport getTime isDisabled r s = false ->
  report getTime isDisabled r s = r.
Proof. unfold report. intros Hno. now rewrite Hno. Qed.

Lemma shouldReport_iff (r : Rep) (s : State) :
  shouldReport getTime isDisabled r s = true <->
  isDisabled s = false
  /\ (dlt (prop_report_time_iterval r) d0 = true
      \/ disnan (prop_report_time_iterval r) = true
      \/ dle (prop_report_time_iterval r)
           (dsub (getTime s) (lastReportTime r)) = true).
Proof.
  unfold shouldReport.
  rewrite andb_true_iff, negb_true_iff, !orb_true_iff. tauto.
Qed.

(** C6. On a candidate event the table grows if and only if the disabled
    flag of the state is false and the interval is negative, or NaN, or not
    more than [currentTime - lastReportTime]; when it grows, exactly one row
    [(currentTime, values of the bound Inputs)] is appended and
    [lastReportTime] becomes [currentTime]; otherwise the reporter is as it
    was. *)
Theorem report_gating (r : Rep) (s : State) :
  let decision :=
    isDisabled s = false
    /\ (dlt (prop_report_time_iterval r) d0 = true
        \/ disnan (prop_report_time_iterval r) = true
        \/ dle (prop_report_time_iterval r)
             (dsub (getTime s) (lastReportTime r)) = true) in
  let r' := report getTime isDisabled r s in
  (List.length (getReport r') = S (List.length (getReport r)) <-> decision)
  /\ (decision ->
      getReport r' =
      getReport r ++ [(getTime s, map (fun input => input s) (inputs r))]
      /\ lastReportTime r' = getTime s)
  /\ (~ decision -> r' = r).
Proof.
  cbv zeta. rewrite <- shouldReport_iff.
  destruct (shouldReport getTime isDisabled r s) eqn:Hgo.
  - rewrite (report_yes r s Hgo). unfold implementReport, getReport.
    cbn [_reportTable lastReportTime]. rewrite length_app. cbn [List.length].
    repeat split; auto.
    + intros _. apply Nat.add_1_r.
    + intros Hno. now elim Hno.
  - rewrite (report_no r s Hgo). repeat split; try discriminate.
    intros Hgrow. exfalso. revert Hgrow. apply Nat.neq_succ_diag_r.
Qed.

End ReporterFacts.

(** ** The physical identities, in exact arithmetic *)

Section ExactFacts.

Context {State Body ScaleSet Model BodyForces : Type}.
Context {ext : Collaborators R State Body ScaleSet Model BodyForces}.

Local Abbreviation Lig := (Ligament R State Body Model).
Local Open Scope R_scope.

Lemma d0_exact : @d0 R exact = 0.
Proof. unfold d0. cbn. field. Qed.

Lemma Rleb_true (x y : R) : Rleb x y = true <-> x <= y.
Proof. unfold Rleb. destruct (Rle_dec x y); split; intros; lra || discriminate || auto. Qed.

Lemma Rleb_false (x y : R) : Rleb x y = false <-> y < x.
Proof. unfold Rleb. destruct (Rle_dec x y); split; intros; lra || discriminate || auto. Qed.

Lemma Rltb_true (x y : R) : Rltb x y = true <-> x < y.
Proof. unfold Rltb. destruct (Rlt_dec x y); split; intros; lra || discriminate || auto. Qed.


Lemma strain_nonneg (l r : R) : 0 < r -> r < l -> 0 <= (l - r) / r.
Proof.
  intros Hr Hl. apply Rlt_le, Rdiv_lt_0_compat; lra.
Qed.

(** The tension of a taut ligament in exact arithmetic: the strain
    [(length - restingLength) / restingLength] is non-negative and
    [getTension] is the curve at that strain times the force scale. *)
Lemma getTension_taut_exact (self : Lig) (s : State) :
  0 < get_resting_length self ->
  get_resting_length self < getLength self s ->
  let strain :=
    (getLength self s - get_resting_length self) / get_resting_length self in
  0 <= strain
  /\ getTension self s =
     calcValue (getForceLengthCurve self) strain * get_pcsa_force self.
Proof.
  intros Hpos Htaut strain. split.
  - now apply strain_nonneg.
  - rewrite getTension_taut by (apply Rleb_false; exact Htaut). reflexivity.
Qed.

Lemma getLength_setLinearStiffness (self : Lig) (K L0 : R) (s : State) :
  getLength (setLinearStiffness self K L0) s = getLength self s.
Proof. reflexivity. Qed.

(** The linear spring in exact arithmetic.  After
    [setLinearStiffness(K, L0)] with [L0] not zero, at every state whose path
    length exceeds [L0] the tension is [K * (length - L0)], the force that
    the comment of [setLinearStiffness] announces: the curve has slope [L0],
    which cancels the division by [L0] in the strain. *)
Lemma linear_tension_exact
    (self : Lig) (K L0 : R) (s : State) :
  L0 <> 0 ->
  L0 < getLength self s ->
  getTension (setLinearStiffness self K L0) s = K * (getLength self s - L0).
Proof.
  intros Hnonzero Htaut.
  rewrite getTension_taut.
  - unfold strainOf. rewrite getLength_setLinearStiffness.
    unfold setLinearStiffness, calcValue, LinearFunction_calcValue.
    cbn [getForceLengthCurve get_resting_length get_pcsa_force
         prop_force_length_curve prop_resting_length prop_pcsa_force
         set_pcsa_force set_resting_length set_force_length_curve].
    rewrite d0_exact. cbn [dadd dmul ddiv dsub exact]. field. exact Hnonzero.
  - rewrite getLength_setLinearStiffness. apply Rleb_false. exact Htaut.
Qed.


(** *** The control points of the default curve

    What [constructProperties] fixes of the default curve is its table; the
    spline through it is [SimmSpline]'s.  The ordinates are zero up to the
    abscissa 1.0, rise with increasing chord slopes up to 1.6, and stay at
    2.0 from there on. *)

Lemma default_curve_is_table (path0 : GeometryPath R State Body) :
  getForceLengthCurve (constructProperties (Model := Model) path0)
  = SimmSpline 13 forceLengthCurveX forceLengthCurveY
  /\ List.length (forceLengthCurveX (D := R)) = 13%nat
  /\ List.length (forceLengthCurveY (D := R)) = 13%nat.
Proof. repeat split. Qed.

Lemma default_curve_abscissae_increase :
  StronglySorted Rlt forceLengthCurveX.
Proof. cbn. repeat (constructor; cbn; try lra). Qed.

Lemma default_curve_zero_up_to_one :
  Forall (fun p => fst p <= 1 -> snd p = 0) controlPoints.
Proof. unfold controlPoints. cbn. repeat constructor; cbn; lra. Qed.

Lemma default_curve_never_decreases :
  StronglySorted Rle forceLengthCurveY.
Proof. cbn. repeat (constructor; cbn; try lra). Qed.

Lemma default_curve_convex_rise :
  StronglySorted Rlt
    (firstn 6 (skipn 3 (chordSlopes forceLengthCurveX forceLengthCurveY))).
Proof. cbn. repeat (constructor; cbn; try lra). Qed.

Lemma default_curve_capped :
  Forall (fun p => 16 / 10 <= fst p -> snd p = 2) controlPoints
  /\ Forall (fun p => snd p <= 2) controlPoints.
Proof. unfold controlPoints. cbn. split; repeat constructor; cbn; lra. Qed.

End ExactFacts.

(** ** Binary64 results

    The primitive operations are specified by [FloatAxioms] through the
    functions of [SpecFloat]; the lemmas below follow the sign of a result
    through rounding, subtraction and division there, and compute the
    products and quotients that are exact. *)

Section SpecFloatFacts.

Local Open Scope Z_scope.

Lemma shr_1_nonneg (mrs : shr_record) :
  0 <= shr_m mrs -> 0 <= shr_m (shr_1 mrs).
Proof.
  destruct mrs as [m r s]. cbn [shr_m].
  destruct m as [|p|p]; [| destruct p | ]; cbn; lia.
Qed.

Lemma iter_pos_invariant {A} (P : A -> Prop) (f : A -> A) :
  (forall a, P a -> P (f a)) -> forall n a, P a -> P (iter_pos f n a).
Proof.
  intros Hf. induction n as [n IH|n IH|]; intros a Ha; cbn; auto.
Qed.

Lemma shr_nonneg mrs e n : 0 <= shr_m mrs -> 0 <= shr_m (fst (shr mrs e n)).
Proof.
  intros Hm. destruct n as [|p|p]; cbn [shr fst]; auto.
  apply (iter_pos_invariant (fun a => 0 <= shr_m a)); auto using shr_1_nonneg.
Qed.

Lemma shr_record_of_loc_m m l : shr_m (shr_record_of_loc m l) = m.
Proof. destruct l as [|[]]; reflexivity. Qed.

Lemma shr_fexp_nonneg m e l :
  0 <= m -> 0 <= shr_m (fst (shr_fexp prec emax m e l)).
Proof.
  intros Hm. unfold shr_fexp. apply shr_nonneg.
  now rewrite shr_record_of_loc_m.
Qed.

Lemma round_nearest_even_nonneg m l : 0 <= m -> 0 <= round_nearest_even m l.
Proof.
  intros Hm. destruct l as [|[]]; cbn; try lia. destruct (Z.even m); lia.
Qed.

(** Rounding a non-negative mantissa keeps the sign it is given and never
    yields NaN. *)
Lemma binary_round_aux_sign s m e l :
  0 <= m ->
  match binary_round_aux prec emax s m e l with
  | S754_zero s' | S754_infinity s' | S754_finite s' _ _ => s' = s
  | S754_nan => False
  end.
Proof.
  intros Hm. unfold binary_round_aux.
  pose proof (shr_fexp_nonneg m e l Hm) as H1.
  destruct (shr_fexp prec emax m e l) as [mrs' e']. cbn [fst] in H1.
  pose proof (shr_fexp_nonneg _ e' loc_Exact
                (round_nearest_even_nonneg _ (loc_of_shr_record mrs') H1))
    as H2.
  destruct (shr_fexp prec emax _ e' loc_Exact) as [mrs'' e''].
  cbn [fst] in H2.
  destruct (shr_m mrs'') as [|p|p]; [reflexivity| |lia].
  destruct (e'' <=? emax - prec); reflexivity.
Qed.

Lemma SFleb_zero_nonneg x : SFnonneg x -> SFleb (S754_zero false) x = true.
Proof.
  destruct x as [s|s| |s m e]; cbn; intros H; subst; try reflexivity.
  contradiction.
Qed.

Lemma SFdiv_core_nonneg m1 e1 m2 e2 :
  0 <= fst (fst (SFdiv_core_binary prec emax (Zpos m1) e1 (Zpos m2) e2)).
Proof.
  unfold SFdiv_core_binary.
  set (s := _ - _ - _).
  set (m' := match s with
             | Zpos _ => Z.shiftl (Zpos m1) s
             | Z0 => Zpos m1
             | Zneg _ => 0
             end).
  assert (Hm' : 0 <= m').
  { subst m'. destruct s; try lia. apply Z.shiftl_nonneg. lia. }
  pose proof (Z.div_pos m' (Zpos m2) Hm' ltac:(lia)) as Hq.
  unfold Z.div in Hq. destruct (Z.div_eucl m' (Zpos m2)) as [q r]. exact Hq.
Qed.

Lemma SFdiv_nonneg x m e :
  SFnonneg x -> SFnonneg (SFdiv prec emax x (S754_finite false m e)).
Proof.
  destruct x as [s|s| |s mx ex]; cbn [SFnonneg]; intros Hx; try contradiction.
  - exact I.
  - subst s. reflexivity.
  - subst s. cbn [SFdiv xorb].
    pose proof (SFdiv_core_nonneg mx ex m e) as Hq.
    destruct (SFdiv_core_binary prec emax (Zpos mx) ex (Zpos m) e)
      as [[mz ez] lz].
    cbn [fst] in Hq.
    pose proof (binary_round_aux_sign false mz ez lz Hq) as Hs.
    destruct (binary_round_aux prec emax false mz ez lz); cbn; auto.
Qed.

Lemma digits2_pos_size m : digits2_pos m = Pos.size m.
Proof. induction m; cbn; congruence. Qed.

Lemma Zpos_iter_xO m d : Zpos (Pos.iter xO m d) = Zpos m * 2 ^ Zpos d.
Proof.
  induction d as [|d IH] using Pos.peano_ind.
  - cbn. lia.
  - rewrite Pos.iter_succ, Pos2Z.inj_succ, Z.pow_succ_r by lia.
    rewrite Pos2Z.inj_xO, IH. ring.
Qed.

Lemma size_bounds m :
  2 ^ (Zpos (Pos.size m) - 1) <= Zpos m < 2 ^ Zpos (Pos.size m).
Proof.
  pose proof (Pos.size_gt m) as Hgt. pose proof (Pos.size_le m) as Hle.
  apply Pos2Z.pos_lt_pos in Hgt. apply Pos2Z.pos_le_pos in Hle.
  rewrite Pos2Z.inj_pow in Hgt, Hle.
  change (Zpos m~0) with (2 * Zpos m) in Hle.
  split; [|exact Hgt].
  replace (Zpos (Pos.size m)) with (Z.succ (Zpos (Pos.size m) - 1)) in Hle
    by lia.
  rewrite Z.pow_succ_r in Hle by lia. lia.
Qed.

(** Aligned to the smaller exponent, the mantissa of the greater of two valid
    positive numbers is the greater one. *)
Lemma aligned_mantissa_le ml el mr er :
  bounded prec emax ml el = true ->
  bounded prec emax mr er = true ->
  SFcompare (S754_finite false mr er) (S754_finite false ml el) = Some Lt ->
  Zpos (fst (shl_align mr er (Z.min el er)))
  <= Zpos (fst (shl_align ml el (Z.min el er))).
Proof.
  unfold bounded, canonical_mantissa, fexp, emin.
  rewrite !andb_true_iff, !Z.eqb_eq.
  intros [Hl _] [Hr _]. rewrite digits2_pos_size in Hl, Hr.
  change IntDef.Z.max with Z.max in Hl, Hr. cbn [SFcompare].
  destruct (Z.compare_spec er el) as [Heq|Hlt|Hgt]; try discriminate.
  - intros Hcmp. injection Hcmp as Hcmp. subst er.
    rewrite Z.min_id. unfold shl_align. rewrite Z.sub_diag. cbn [fst].
    rewrite Pos.compare_cont_spec in Hcmp.
    destruct (Pos.compare_spec mr ml); cbn in Hcmp; try discriminate. lia.
  - intros _. rewrite Z.min_r by lia. unfold shl_align. rewrite Z.sub_diag.
    cbn [fst].
    destruct (er - el) as [|d|d] eqn:Hd; try lia. cbn [fst].
    rewrite Zpos_iter_xO.
    pose proof (size_bounds ml) as Hbl. pose proof (size_bounds mr) as Hbr.
    unfold prec, emax in *.
    assert (Hsl : Zpos (Pos.size ml) = 53) by lia.
    assert (Hsr : Zpos (Pos.size mr) <= 53) by lia.
    rewrite Hsl in Hbl.
    assert (H2 : 2 ^ Zpos (Pos.size mr) <= 2 ^ 53)
      by (apply Z.pow_le_mono_r; lia).
    assert (H3 : 2 ^ 1 <= 2 ^ Zpos d) by (apply Z.pow_le_mono_r; lia).
    change (2 ^ (53 - 1)) with 4503599627370496 in Hbl.
    change (2 ^ 53) with 9007199254740992 in H2. change (2 ^ 1) with 2 in H3.
    nia.
Qed.

Lemma SFsub_nonneg ml el mr er :
  bounded prec emax ml el = true ->
  bounded prec emax mr er = true ->
  SFcompare (S754_finite false mr er) (S754_finite false ml el) = Some Lt ->
  SFnonneg
    (SFsub prec emax (S754_finite false ml el) (S754_finite false mr er)).
Proof.
  intros Hl Hr Hcmp.
  pose proof (aligned_mantissa_le ml el mr er Hl Hr Hcmp) as Hle.
  cbn [SFsub cond_Zopp].
  destruct (Zpos (fst (shl_align ml el (Z.min el er)))
            - Zpos (fst (shl_align mr er (Z.min el er)))) as [|d|d] eqn:Hd;
    try lia; cbn [binary_normalize SFnonneg]; [exact I|].
  unfold binary_round.
  destruct (shl_align d (Z.min el er) _) as [mz ez].
  pose proof (binary_round_aux_sign false (Zpos mz) ez loc_Exact ltac:(lia))
    as Hs.
  destruct (binary_round_aux prec emax false (Zpos mz) ez loc_Exact);
    cbn; auto.
Qed.

Lemma SFcompare_Lt_Gt x y :
  SFcompare x y = Some Lt -> SFcompare y x = Some Gt.
Proof.
  destruct x as [sx|sx| |sx mx ex], y as [sy|sy| |sy my ey];
    try destruct sx; try destruct sy; cbn; try discriminate; try reflexivity;
    rewrite (Z.compare_antisym ex ey), (ZC4 my mx);
    destruct (ex ?= ey); cbn; try discriminate; try reflexivity;
    destruct (Pos.compare_cont Eq mx my); cbn; try discriminate; reflexivity.
Qed.

(** *** Exact products and quotients *)

Lemma div_eucl_exact (m : positive) (k : Z) :
  0 <= k -> Z.div_eucl (Zpos m * k) (Zpos m) = (k, 0).
Proof.
  intros Hk.
  pose proof (Z.div_mul k (Zpos m) ltac:(lia)) as Hq.
  pose proof (Z.mod_mul k (Zpos m) ltac:(lia)) as Hr.
  rewrite (Z.mul_comm k) in Hq, Hr.
  unfold Z.div, Z.modulo in Hq, Hr.
  destruct (Z.div_eucl (Zpos m * k) (Zpos m)) as [q r]. congruence.
Qed.

Lemma new_location_exact n : new_location n 0 = loc_Exact.
Proof. unfold new_location. destruct (Z.even n); reflexivity. Qed.

(** A finite non-zero number divided by itself is 1. *)
Lemma SFdiv_self s m e :
  SFdiv prec emax (S754_finite s m e) (S754_finite s m e) = Prim2SF 1.
Proof.
  cbn [SFdiv]. unfold SFdiv_core_binary.
  rewrite Z.sub_diag.
  replace (Zdigits2 (Zpos m) + e - (Zdigits2 (Zpos m) + e)) with 0 by lia.
  change (Z.min (fexp prec emax 0) 0) with (-53).
  change (0 - -53) with 53.
  cbv iota. rewrite Z.shiftl_mul_pow2 by lia.
  rewrite div_eucl_exact by lia. rewrite new_location_exact.
  destruct s; reflexivity.
Qed.

Lemma iter_pos_Pos_iter {A} (f : A -> A) n :
  forall x, iter_pos f n x = Pos.iter f x n.
Proof.
  induction n as [n IH|n IH|]; intros x; cbn; rewrite ?IH; try reflexivity.
  now rewrite <- !Pos.iter_swap.
Qed.

Lemma iter_shr_1_exact m k :
  iter_pos shr_1 k (Build_shr_record (Zpos (Pos.iter xO m k)) false false)
  = Build_shr_record (Zpos m) false false.
Proof.
  rewrite iter_pos_Pos_iter.
  induction k as [|k IH] using Pos.peano_ind.
  - reflexivity.
  - rewrite (Pos.iter_succ k _ xO), Pos.iter_succ, <- Pos.iter_swap.
    exact IH.
Qed.

Lemma digits2_pos_iter_xO m k :
  Zpos (digits2_pos (Pos.iter xO m k)) = Zpos (digits2_pos m) + Zpos k.
Proof.
  induction k as [|k IH] using Pos.peano_ind.
  - cbn. lia.
  - rewrite Pos.iter_succ. cbn [digits2_pos]. rewrite Pos2Z.inj_succ, IH. lia.
Qed.

(** Rounding is exact on a canonical mantissa followed by [k] zero bits. *)
Lemma binary_round_aux_shifted s m e k :
  canonical_mantissa prec emax m e = true ->
  binary_round_aux prec emax s (Zpos (Pos.iter xO m k)) (e - Zpos k) loc_Exact
  = if e <=? emax - prec then S754_finite s m e else S754_infinity s.
Proof.
  unfold canonical_mantissa. rewrite Z.eqb_eq. intros Hcan.
  unfold binary_round_aux, shr_fexp.
  cbn [Zdigits2 shr_record_of_loc]. rewrite digits2_pos_iter_xO.
  replace (Zpos (digits2_pos m) + Zpos k + (e - Zpos k))
    with (Zpos (digits2_pos m) + e) by lia.
  rewrite Hcan. replace (e - (e - Zpos k)) with (Zpos k) by lia.
  cbn [shr]. rewrite iter_shr_1_exact.
  cbn [shr_m loc_of_shr_record round_nearest_even Zdigits2 shr_record_of_loc].
  replace (e - Zpos k + Zpos k) with e by lia.
  rewrite Hcan, Z.sub_diag. cbn [shr shr_m]. reflexivity.
Qed.

(** Multiplying by 1 changes nothing. *)
Lemma SFmul_one_r x :
  valid_binary x = true -> SFmul prec emax x (Prim2SF 1) = x.
Proof.
  change (Prim2SF 1) with (S754_finite false 4503599627370496 (-52)).
  destruct x as [s|s| |s m e]; cbn [SFmul SpecFloat.valid_binary]; intros Hv;
    rewrite ?xorb_false_r; try reflexivity.
  unfold bounded in Hv. apply andb_true_iff in Hv as [Hcan Hle].
  rewrite Pos.mul_comm.
  change (Pos.mul 4503599627370496 m) with (Pos.iter xO m 52).
  change (e + -52) with (e - 52).
  rewrite binary_round_aux_shifted by exact Hcan. now rewrite Hle.
Qed.

Lemma canonical_cases m e :
  canonical_mantissa prec emax m e = true ->
  Zpos (digits2_pos m) = 53 \/ (Zpos (digits2_pos m) < 53 /\ e = -1074).
Proof.
  unfold canonical_mantissa, fexp, emin, prec, emax. rewrite Z.eqb_eq.
  change IntDef.Z.max with Z.max. lia.
Qed.

(** Twice a finite number: the exponent moves up for a normal number (and
    overflows to infinity past the largest exponent), the mantissa doubles
    for a subnormal one. *)
Lemma SFmul_two s m e :
  bounded prec emax m e = true ->
  SFmul prec emax (Prim2SF 2) (S754_finite s m e)
  = if Zpos (digits2_pos m) =? 53
    then if e + 1 <=? emax - prec
         then S754_finite s m (e + 1) else S754_infinity s
    else S754_finite s (xO m) e.
Proof.
  change (Prim2SF 2) with (S754_finite false 4503599627370496 (-51)).
  unfold bounded. rewrite andb_true_iff. intros [Hcan Hle].
  cbn [SFmul xorb].
  destruct (canonical_cases m e Hcan) as [Hnormal|[Hsub He]].
  - rewrite Hnormal. cbn [Z.eqb Pos.eqb].
    change (Pos.mul 4503599627370496 m) with (Pos.iter xO m 52).
    replace (-51 + e) with (e + 1 - 52) by lia.
    apply binary_round_aux_shifted.
    unfold canonical_mantissa, fexp, emin, prec, emax in *.
    rewrite Z.eqb_eq in *. change IntDef.Z.max with Z.max in *. lia.
  - replace (Zpos (digits2_pos m) =? 53) with false
      by (symmetry; apply Z.eqb_neq; lia).
    change (Pos.mul 4503599627370496 m) with (Pos.iter xO (xO m) 51).
    replace (-51 + e) with (e - 51) by lia.
    rewrite binary_round_aux_shifted.
    + now rewrite Hle.
    + unfold canonical_mantissa, fexp, emin, prec, emax in *.
      cbn [digits2_pos]. rewrite Pos2Z.inj_succ.
      rewrite Z.eqb_eq in *. change IntDef.Z.max with Z.max in *. lia.
Qed.

(** A positive finite number whose double is finite: the double divided by
    the number is 2. *)
Lemma SFdiv_double m e :
  bounded prec emax m e = true ->
  SFmul prec emax (Prim2SF 2) (S754_finite false m e) <> S754_infinity false ->
  SFdiv prec emax (SFmul prec emax (Prim2SF 2) (S754_finite false m e))
    (S754_finite false m e)
  = Prim2SF 2.
Proof.
  intros Hb. rewrite (SFmul_two false m e Hb).
  destruct (Zpos (digits2_pos m) =? 53).
  - destruct (e + 1 <=? emax - prec); [intros _|intros Hinf; now elim Hinf].
    cbn [SFdiv xorb]. unfold SFdiv_core_binary.
    replace (Zdigits2 (Zpos m) + (e + 1) - (Zdigits2 (Zpos m) + e))
      with 1 by lia.
    replace (e + 1 - e) with 1 by lia.
    change (Z.min (fexp prec emax 1) 1) with (-52).
    change (1 - -52) with 53.
    cbv iota. rewrite Z.shiftl_mul_pow2 by lia.
    rewrite div_eucl_exact by lia. rewrite new_location_exact. reflexivity.
  - intros _. cbn [SFdiv xorb]. unfold SFdiv_core_binary.
    cbn [Zdigits2 digits2_pos]. rewrite Pos2Z.inj_succ.
    replace (Z.succ (Zpos (digits2_pos m)) + e - (Zpos (digits2_pos m) + e))
      with 1 by lia.
    rewrite Z.sub_diag.
    change (Z.min (fexp prec emax 1) 0) with (-52).
    change (0 - -52) with 52.
    cbv iota. rewrite Z.shiftl_mul_pow2 by lia.
    replace (Zpos (xO m) * 2 ^ 52) with (Zpos m * 2 ^ 53)
      by (change (2 ^ 53) with (2 * 2 ^ 52); lia).
    rewrite div_eucl_exact by lia. rewrite new_location_exact. reflexivity.
Qed.

End SpecFloatFacts.

(** [a > b] excludes [a <= b]. *)
Lemma taut_not_slack (len rl : float) :
  PrimFloat.ltb rl len = true -> PrimFloat.leb len rl = false.
Proof.
  rewrite FloatAxioms.ltb_spec, FloatAxioms.leb_spec. unfold SFltb, SFleb.
  destruct (SFcompare (Prim2SF rl) (Prim2SF len)) as [[]|] eqn:Hcmp;
    try discriminate.
  intros _. now rewrite (SFcompare_Lt_Gt _ _ Hcmp).
Qed.

(** The strain of a taut ligament is never negative and never NaN: with
    [0 < rl < len], the rounded difference [len - rl] is not negative, and
    neither is its rounded quotient by [rl]. *)
Lemma strain_nonneg_binary64 (len rl : float) :
  PrimFloat.ltb 0 rl = true ->
  PrimFloat.ltb rl len = true ->
  PrimFloat.leb 0 (PrimFloat.div (PrimFloat.sub len rl) rl) = true.
Proof.
  intros Hpos Htaut.
  rewrite FloatAxioms.leb_spec, FloatAxioms.div_spec, FloatAxioms.sub_spec.
  change (Prim2SF 0) with (S754_zero false).
  pose proof (Prim2SF_valid len) as Hvl. pose proof (Prim2SF_valid rl) as Hvr.
  rewrite FloatAxioms.ltb_spec in Hpos, Htaut.
  change (Prim2SF 0) with (S754_zero false) in Hpos.
  unfold SFltb in Hpos, Htaut.
  destruct (Prim2SF rl) as [sr|sr| |sr mr er]; cbn in Hpos; try discriminate;
    destruct sr; try discriminate.
  - (* the resting length is plus infinity: nothing is longer *)
    destruct (Prim2SF len) as [sl|sl| |sl ml el]; try destruct sl;
      discriminate.
  - apply SFleb_zero_nonneg.
    destruct (Prim2SF len) as [sl|sl| |sl ml el]; try destruct sl;
      try discriminate.
    + reflexivity.
    + apply SFdiv_nonneg, SFsub_nonneg; auto.
      destruct (SFcompare (S754_finite false mr er) (S754_finite false ml el))
        as [[]|]; try discriminate; reflexivity.
Qed.

(** ** The force of a taut ligament, in binary64 *)

Section Binary64Facts.

Context {State Body ScaleSet Model BodyForces GeneralizedForces : Type}.
Context {ext : Collaborators float State Body ScaleSet Model BodyForces}.

Local Abbreviation Lig := (Ligament float State Body Model).
Local Abbreviation World :=
  (ForceWorld float State Body Model BodyForces GeneralizedForces).

Lemma d0_binary64 : @d0 float binary64 = 0%float.
Proof. reflexivity. Qed.

(** A value that compares greater than zero is a positive finite number or
    plus infinity. *)
Lemma positive_cases (x : float) :
  PrimFloat.ltb 0 x = true ->
  Prim2SF x = S754_infinity false
  \/ exists m e, Prim2SF x = S754_finite false m e.
Proof.
  rewrite FloatAxioms.ltb_spec. change (Prim2SF 0) with (S754_zero false).
  destruct (Prim2SF x) as [sx|sx| |sx m e]; cbn; try discriminate.
  - destruct sx; [discriminate|]. now left.
  - destruct sx; [discriminate|]. right. now exists m, e.
Qed.

Lemma positive_not_le_zero (x : float) :
  PrimFloat.ltb 0 x = true -> PrimFloat.leb x 0 = false.
Proof.
  intros Hpos. rewrite FloatAxioms.leb_spec. change (Prim2SF 0) with (S754_zero false).
  destruct (positive_cases x Hpos) as [Hx|(m & e & Hx)]; now rewrite Hx.
Qed.

(** IEEE 754: a positive number divided by zero is plus infinity. *)
Lemma positive_over_zero (x : float) :
  PrimFloat.ltb 0 x = true ->
  PrimFloat.div (PrimFloat.sub x 0) 0 = infinity.
Proof.
  intros Hpos. apply Prim2SF_inj. rewrite FloatAxioms.div_spec, FloatAxioms.sub_spec.
  change (Prim2SF 0) with (S754_zero false).
  change (Prim2SF infinity) with (S754_infinity false).
  destruct (positive_cases x Hpos) as [Hx|(m & e & Hx)]; now rewrite Hx.
Qed.

Lemma finite_positive_cases (x : float) :
  PrimFloat.ltb 0 x = true ->
  PrimFloat.ltb x infinity = true ->
  exists m e, Prim2SF x = S754_finite false m e.
Proof.
  intros Hpos Hfin. destruct (positive_cases x Hpos) as [Hx|Hx]; [|exact Hx].
  rewrite FloatAxioms.ltb_spec, Hx in Hfin. discriminate.
Qed.

Lemma div_self_binary64 (x : float) :
  PrimFloat.ltb 0 x = true ->
  PrimFloat.ltb x infinity = true ->
  PrimFloat.div x x = 1%float.
Proof.
  intros Hpos Hfin. apply Prim2SF_inj. rewrite FloatAxioms.div_spec.
  destruct (finite_positive_cases x Hpos Hfin) as (m & e & Hx).
  rewrite Hx. apply SFdiv_self.
Qed.

Lemma mul_one_binary64 (r : float) : PrimFloat.mul r 1 = r.
Proof.
  apply Prim2SF_inj. rewrite FloatAxioms.mul_spec.
  apply SFmul_one_r, Prim2SF_valid.
Qed.

Lemma double_div_binary64 (x : float) :
  PrimFloat.ltb 0 x = true ->
  PrimFloat.ltb (PrimFloat.mul 2 x) infinity = true ->
  PrimFloat.div (PrimFloat.mul 2 x) x = 2%float.
Proof.
  intros Hpos Hfin. apply Prim2SF_inj.
  rewrite FloatAxioms.ltb_spec, FloatAxioms.mul_spec in Hfin.
  rewrite FloatAxioms.div_spec, FloatAxioms.mul_spec.
  pose proof (Prim2SF_valid x) as Hvalid.
  destruct (positive_cases x Hpos) as [Hx|(m & e & Hx)];
    rewrite Hx in Hfin, Hvalid |- *.
  - discriminate.
  - apply SFdiv_double; [exact Hvalid|].
    intros Hinf. unfold SF64mul in Hfin. rewrite Hinf in Hfin. discriminate.
Qed.

(** The rescaling of [postScale], bit for bit: whatever is not greater than
    zero (zero, a negative number, NaN) leaves the resting length alone, and
    for finite lengths an unchanged length gives the factor 1 and a doubled
    length the factor 2. *)
Lemma postScale_binary64_factors
    (self : Lig) (s : State) (sc : ScaleSet) :
  let path := GeometryPath_postScale (get_GeometryPath self) s sc in
  let pre := getPreScaleLength path s in
  let new := path_getLength path s in
  let self' := postScale self s sc in
  (PrimFloat.ltb 0 pre = true ->
     get_resting_length self'
     = PrimFloat.mul (get_resting_length self) (PrimFloat.div new pre)
     /\ getPreScaleLength (get_GeometryPath self') s = 0%float)
  /\ (PrimFloat.ltb 0 pre = false ->
      get_resting_length self' = get_resting_length self)
  /\ (PrimFloat.ltb 0 pre = true -> PrimFloat.ltb pre infinity = true ->
      new = pre ->
      get_resting_length self' = get_resting_length self)
  /\ (PrimFloat.ltb 0 pre = true -> new = PrimFloat.mul 2 pre ->
      PrimFloat.ltb new infinity = true ->
      get_resting_length self' = PrimFloat.mul (get_resting_length self) 2).
Proof.
  intros path pre new self'. subst self'.
  assert (Hyes : PrimFloat.ltb 0 pre = true ->
            get_resting_length (postScale self s sc)
            = PrimFloat.mul (get_resting_length self) (PrimFloat.div new pre)).
  { intros Hpre. now rewrite postScale_rescaled. }
  split; [|split; [|split]].
  - intros Hpre. split; [exact (Hyes Hpre)|]. now rewrite postScale_rescaled.
  - intros Hpre. now rewrite postScale_untouched.
  - intros Hpre Hfin Hsame. rewrite (Hyes Hpre), Hsame.
    rewrite (div_self_binary64 pre Hpre Hfin). apply mul_one_binary64.
  - intros Hpre Hdouble Hfin. rewrite (Hyes Hpre), Hdouble.
    rewrite Hdouble in Hfin. now rewrite (double_div_binary64 pre Hpre Hfin).
Qed.

(** C2. When the path is longer than the (positive) resting length, the
    slack test fails, the strain
    [(length - restingLength) / restingLength] that [getTension] forms
    compares greater than or equal to zero, and [getTension] returns the
    curve at that strain times the force scale. *)
Theorem getTension_taut_binary64 (self : Lig) (s : State) :
  PrimFloat.ltb 0 (get_resting_length self) = true ->
  PrimFloat.ltb (get_resting_length self) (getLength self s) = true ->
  let strain :=
    PrimFloat.div
      (PrimFloat.sub (getLength self s) (get_resting_length self))
      (get_resting_length self) in
  PrimFloat.leb (getLength self s) (get_resting_length self) = false
  /\ PrimFloat.leb 0 strain = true
  /\ getTension self s =
     PrimFloat.mul (calcValue (getForceLengthCurve self) strain)
       (get_pcsa_force self).
Proof.
  intros Hpos Htaut strain.
  pose proof (taut_not_slack _ _ Htaut) as Hguard.
  split; [exact Hguard|]. split.
  - now apply strain_nonneg_binary64.
  - rewrite getTension_taut by exact Hguard. reflexivity.
Qed.

(** C3, as the code has it.  After [setLinearStiffness(K, L0)], at every
    state whose path length exceeds [L0], [getTension] returns
    [(L0 * ((length - L0) / L0) + 0) * K], each operation rounded as the
    code performs it: the installed curve is the line of slope [L0] and
    intercept 0, so the strain is multiplied back by [L0] before the
    stiffness is applied.  The value is [K * (length - L0)] up to rounding
    (and exactly that in real arithmetic, [linear_tension_exact]),
    not [K * (length - L0) / L0]. *)
Theorem setLinearStiffness_tension (self : Lig) (K L0 : float) (s : State) :
  PrimFloat.ltb L0 (getLength self s) = true ->
  getTension (setLinearStiffness self K L0) s
  = PrimFloat.mul
      (PrimFloat.add
         (PrimFloat.mul L0
            (PrimFloat.div (PrimFloat.sub (getLength self s) L0) L0))
         0)
      K.
Proof.
  intros Htaut.
  rewrite getTension_taut by (now apply taut_not_slack).
  unfold strainOf, setLinearStiffness, calcValue, LinearFunction_calcValue.
  cbn [getForceLengthCurve get_resting_length get_pcsa_force getLength
       get_GeometryPath prop_GeometryPath
       prop_force_length_curve prop_resting_length prop_pcsa_force
       set_pcsa_force set_resting_length set_force_length_curve].
  rewrite d0_binary64. reflexivity.
Qed.

(** X6. The curve installed by [setLinearStiffness(K, L0)] keeps the slope
    [L0]: after a later [setRestingLength(r)], at every state whose path
    length exceeds [r], [getTension] returns
    [(L0 * ((length - r) / r) + 0) * K], where the strain divides by the new
    resting length and the curve still multiplies by the old one. *)
Theorem setRestingLength_after_linear
    (self : Lig) (K L0 r : float) (s : State) :
  PrimFloat.ltb r (getLength self s) = true ->
  getTension (fst (setRestingLength (setLinearStiffness self K L0) r)) s
  = PrimFloat.mul
      (PrimFloat.add
         (PrimFloat.mul L0
            (PrimFloat.div (PrimFloat.sub (getLength self s) r) r))
         0)
      K.
Proof.
  intros Htaut.
  rewrite getTension_taut by (now apply taut_not_slack).
  unfold strainOf, setRestingLength, setLinearStiffness, calcValue,
    LinearFunction_calcValue.
  cbn [fst getForceLengthCurve get_resting_length get_pcsa_force getLength
       get_GeometryPath prop_GeometryPath
       prop_force_length_curve prop_resting_length prop_pcsa_force
       set_pcsa_force set_resting_length set_force_length_curve].
  rewrite d0_binary64. reflexivity.
Qed.

(** C10. A default-constructed ligament has resting length [0.0] and force
    scale [0.0].  At any state where its path length is positive, the slack
    test fails, and the strain that [getTension] and [computeForce] then
    form is the quotient of the length by the resting length [0.0], a
    division by zero, whose binary64 result is plus infinity. *)
Theorem default_ligament_divides_by_zero
    (w : World) (path0 : GeometryPath float State Body) :
  w_self w = constructProperties path0 ->
  PrimFloat.ltb 0 (getLength (w_self w) (w_state w)) = true ->
  get_resting_length (w_self w) = 0%float
  /\ get_pcsa_force (w_self w) = 0%float
  /\ dle (getLength (w_self w) (w_state w)) (get_resting_length (w_self w)) = false
  /\ strainOf (w_self w) (w_state w) =
     PrimFloat.div (PrimFloat.sub (getLength (w_self w) (w_state w)) 0) 0
  /\ strainOf (w_self w) (w_state w) = infinity
  /\ getTension (w_self w) (w_state w) =
     PrimFloat.mul (calcValue (getForceLengthCurve (w_self w)) infinity) 0
  /\ computeForce w =
     mkForceWorld (w_self w) (w_state w)
       (applyForces (w_state w)
          (PrimFloat.mul (calcValue (getForceLengthCurve (w_self w)) infinity) 0)
          (path_getPointForceDirections (get_GeometryPath (w_self w)) (w_state w))
          (w_bodyForces w))
       (w_generalizedForces w).
Proof.
  intros Hdefault Hpos.
  assert (Hrest : get_resting_length (w_self w) = 0%float)
    by (rewrite Hdefault; reflexivity).
  assert (Hscale : get_pcsa_force (w_self w) = 0%float)
    by (rewrite Hdefault; reflexivity).
  assert (Hguard : dle (getLength (w_self w) (w_state w))
                     (get_resting_length (w_self w)) = false).
  { rewrite Hrest. now apply positive_not_le_zero. }
  assert (Hstrain : strainOf (w_self w) (w_state w) = infinity).
  { unfold strainOf. rewrite Hrest. now apply positive_over_zero. }
  repeat split; auto.
  - unfold strainOf. now rewrite Hrest.
  - rewrite (getTension_taut _ _ Hguard), Hstrain, Hscale. reflexivity.
  - rewrite (computeForce_taut w Hguard), Hstrain, Hscale. reflexivity.
Qed.

End Binary64Facts.

(** ** The theorems at concrete inputs *)

Set Warnings "-inexact-float".
Local Open Scope float_scope.

(** The control points of the default curve in binary64 are the values the
    compiler reads from the decimal literals of [constructProperties]. *)
Example default_curve_binary64 :
  forceLengthCurveX (D := float)
  = [ -5; 0.998; 0.999; 1; 1.1; 1.2; 1.3; 1.4; 1.5; 1.6; 1.601; 1.602;
      5 ]%float
  /\ forceLengthCurveY (D := float)
     = [ 0; 0; 0; 0; 0.035; 0.12; 0.26; 0.55; 1.17; 2; 2; 2; 2 ]%float.
Proof. split; vm_compute; reflexivity. Qed.

(** A slack ligament on the bench: resting length 2, length 1.5. *)
Lemma slack_gives_no_force_witness :
  let w :=
    benchWorld (benchLigament 2 10 (LinearFunction 1 0)) 1.5%float in
  computeForce (ext := bench) w = w
  /\ w_bodyForces (computeForce (ext := bench) w) = w_bodyForces w
  /\ getTension (ext := bench) (w_self w) (w_state w) = d0.
Proof.
  apply (slack_gives_no_force (ext := bench)); reflexivity.
Defined.

(** A taut ligament on the bench: resting length 2, length 3, strain 0.5. *)
Lemma getTension_taut_binary64_witness :
  PrimFloat.leb 3 2 = false
  /\ PrimFloat.leb 0 (PrimFloat.div (PrimFloat.sub 3 2) 2) = true
  /\ getTension (ext := bench) (benchLigament 2 10 (LinearFunction 1 0)) 3
     = PrimFloat.mul
         (calcValue (ext := bench) (LinearFunction 1 0)
            (PrimFloat.div (PrimFloat.sub 3 2) 2))
         10.
Proof.
  apply (getTension_taut_binary64 (ext := bench)
           (benchLigament 2 10 (LinearFunction 1 0)) 3); reflexivity.
Defined.

(** The same ligament in exact arithmetic. *)
Example getTension_taut_exact_run :
  (0 <= (3 - 2) / 2
   /\ getTension (ext := bench) (benchLigament 2 10 (LinearFunction 1 0)) 3
      = calcValue (ext := bench) (LinearFunction 1 0) ((3 - 2) / 2) * 10)%R.
Proof.
  apply (getTension_taut_exact (ext := bench)
           (benchLigament 2 10 (LinearFunction 1 0)) 3)%R; cbn; lra.
Qed.

(** [setLinearStiffness(3, 2)] at length 4 on the bench. *)
Lemma setLinearStiffness_tension_witness :
  getTension (ext := bench)
    (setLinearStiffness (benchLigament 1 1 (LinearFunction 1 0)) 3 2) 4
  = PrimFloat.mul
      (PrimFloat.add
         (PrimFloat.mul 2 (PrimFloat.div (PrimFloat.sub 4 2) 2)) 0)
      3.
Proof.
  apply (setLinearStiffness_tension (ext := bench)
           (benchLigament 1 1 (LinearFunction 1 0)) 3 2 4); reflexivity.
Defined.

(** C3 as the claim states it fails: after [setLinearStiffness(1, 2)], at
    length 4 (greater than [L0 = 2]) the code returns 2, and
    [K * (length - L0) / L0] is 1; every value involved is a binary64
    number, so no rounding takes part. *)
Lemma setLinearStiffness_claim_fails :
  let self := setLinearStiffness (benchLigament 1 1 (LinearFunction 1 0)) 1 2 in
  PrimFloat.ltb 2 (getLength self 4) = true
  /\ getTension (ext := bench) self 4 = 2
  /\ PrimFloat.div (PrimFloat.mul 1 (PrimFloat.sub (getLength self 4) 2)) 2
     = 1
  /\ getTension (ext := bench) self 4
     <> PrimFloat.div (PrimFloat.mul 1 (PrimFloat.sub (getLength self 4) 2))
          2.
Proof.
  cbv zeta. repeat split; try (vm_compute; reflexivity).
  intros Heq. apply (f_equal Prim2SF) in Heq. vm_compute in Heq.
  discriminate.
Qed.

(** The same in exact arithmetic, where the tension is [K * (length - L0)];
    and in binary64 with [L0 = 0], where the strain is infinite and the
    tension NaN. *)
Example setLinearStiffness_runs :
  (getTension (ext := bench)
     (setLinearStiffness (benchLigament 1 1 (LinearFunction 1 0)) 3 2) 4
   = 3 * (4 - 2))%R
  /\ getTension (ext := bench)
       (setLinearStiffness (benchLigament 1 1 (LinearFunction 1 0)) 1 0) 1
     = nan.
Proof.
  split; [|vm_compute; reflexivity].
  apply (linear_tension_exact (ext := bench)
           (benchLigament 1 1 (LinearFunction 1 0)) 3 2 4)%R; cbn; lra.
Qed.

(** Rounding takes part in general: after [setLinearStiffness(1, 0.3)], at
    length 1 the code returns the binary64 number above [1 - 0.3]. *)
Example setLinearStiffness_rounding_run :
  getTension (ext := bench)
    (setLinearStiffness (benchLigament 1 1 (LinearFunction 1 0)) 1 0.3) 1
  = 0.70000000000000007
  /\ PrimFloat.mul 1 (PrimFloat.sub 1 0.3) = 0.69999999999999996
  /\ PrimFloat.ltb (PrimFloat.mul 1 (PrimFloat.sub 1 0.3))
       (getTension (ext := bench)
          (setLinearStiffness (benchLigament 1 1 (LinearFunction 1 0)) 1 0.3)
          1)
     = true.
Proof. repeat split; vm_compute; reflexivity. Qed.

(** The default ligament on the bench at length 1.5. *)
Lemma default_ligament_divides_by_zero_witness :
  let w := benchWorld (constructProperties (benchPath (fun s => s))) 1.5%float in
  strainOf (w_self w) (w_state w) = infinity
  /\ dle (getLength (w_self w) (w_state w)) (get_resting_length (w_self w))
     = false.
Proof.
  cbv zeta.
  destruct (default_ligament_divides_by_zero (ext := bench)
              (benchWorld (constructProperties (benchPath (fun s => s)))
                 1.5%float)
              (benchPath (fun s => s)) eq_refl eq_refl)
    as (_ & _ & Hguard & _ & Hstrain & _).
  split; assumption.
Defined.

(** The scaling pipeline on the bench in binary64: a uniform scale by 2
    doubles the resting length, and clears the scratch slot. *)
Example scaling_doubles_binary64 :
  let self := benchLigament 2 10 (LinearFunction 1 0) in
  let self' :=
    postScale (ext := bench)
      (scale (ext := bench) (preScale (ext := bench) self 3 2) 3 2) 3 2 in
  get_resting_length self' = 4%float
  /\ getPreScaleLength (get_GeometryPath self') 3 = 0%float.
Proof. split; vm_compute; reflexivity. Qed.

(** The whole pipeline on the bench in exact arithmetic: [preScale], a
    uniform [scale] by [k], [postScale] multiply the resting length by [k]
    (an unchanged length is [k = 1], a doubled one [k = 2]). *)
Lemma bench_scaling_exact (rl pcsa : R) (curve : Function R) (s k : R) :
  (0 < s)%R ->
  let self := benchLigament rl pcsa curve in
  let self' :=
    postScale (ext := bench)
      (scale (ext := bench) (preScale (ext := bench) self s k) s k) s k in
  get_resting_length self' = (rl * k)%R
  /\ getPreScaleLength (get_GeometryPath self') s = 0%R.
Proof.
  intros Hs self self'. subst self' self.
  rewrite postScale_rescaled.
  - cbn. split; field; lra.
  - cbn. apply Rltb_true. lra.
Qed.

(** The gating example of the specification: interval 1.0, candidate events
    at 0.0, 0.4, 0.9, 1.0, 1.5, 2.1, nothing recorded before. *)
Example gating_example_run :
  getReport
    (fold_left benchReport [0; 0.4; 0.9; 1; 1.5; 2.1]%float
       (benchReporter 1 neg_infinity))
  = [ (0, [0]); (1, [1]); (2.1, [2.1]) ]%float.
Proof. vm_compute. reflexivity. Qed.

(** With a negative or NaN interval every candidate event is recorded. *)
Example report_every_step_run :
  map fst
    (getReport
       (fold_left benchReport [0; 0.4; 0.9]%float (benchReporter nan 0)))
  = [0; 0.4; 0.9]%float
  /\ map fst
       (getReport
          (fold_left benchReport [0; 0.4; 0.9]%float (benchReporter (-1) 0)))
     = [0; 0.4; 0.9]%float.
Proof. split; vm_compute; reflexivity. Qed.

(** Connecting on the bench with assertions enabled: the default ligament
    (resting length 0.0) stops at the assertion once a model owns it, and
    returns at registration. *)
Example connectToModel_run :
  connectToModel (ext := bench) false
    (constructProperties (D := float) (benchPath (fun s => s))) 7%nat
  = AssertionFailed "restingLength > 0.0"
  /\ connectToModel (ext := benchRegistering) false
       (constructProperties (D := float) (benchPath (fun s => s))) 7%nat
     = Returned
         (includeAsSubComponent
            (constructProperties (benchPath (fun s => s))) Ref_GeometryPath).
Proof. split; vm_compute; reflexivity. Qed.

(** C5 as the claim states it fails in a build that defines [NDEBUG]: the
    default ligament has an owning model after the generic step and the
    resting length 0.0, which is not greater than zero, and
    [connectToModel] returns it, its path owned, its resting length still
    0.0, with no diagnostic. *)
Lemma connectToModel_ndebug_accepts :
  let self := constructProperties (D := float) (benchPath (fun s => s)) in
  _model (wired (ext := bench) self 7%nat) = Some 7%nat
  /\ PrimFloat.ltb 0 (get_resting_length (wired (ext := bench) self 7%nat))
     = false
  /\ connectToModel (ext := bench) true self 7%nat
     = Returned
         (set_GeometryPath (wired (ext := bench) self 7%nat)
            (setOwner (get_GeometryPath (wired (ext := bench) self 7%nat))
               ThisLigament))
  /\ (forall expression,
        connectToModel (ext := bench) true self 7%nat
        <> AssertionFailed expression).
Proof.
  cbv zeta. repeat split; try (vm_compute; reflexivity).
  intros expression. vm_compute. discriminate.
Qed.

(** * Further properties of Ligament.cpp *)

(** ** Connecting: when it fails, and what a returned element satisfies *)

Section ConnectMore.

Context {D : Type} {ops : DoubleOps D}.
Context {State Body ScaleSet Model BodyForces : Type}.
Context {ext : Collaborators D State Body ScaleSet Model BodyForces}.

Local Abbreviation Lig := (Ligament D State Body Model).

Lemma connectToModel_cases (NDEBUG : bool) (self : Lig) (aModel : Model) :
  (_model (wired self aModel) = None
   /\ connectToModel NDEBUG self aModel = Returned (wired self aModel))
  \/ (_model (wired self aModel) <> None
      /\ (NDEBUG = true
          \/ dlt d0 (get_resting_length (wired self aModel)) = true)
      /\ connectToModel NDEBUG self aModel =
         Returned
           (set_GeometryPath (wired self aModel)
              (setOwner (get_GeometryPath (wired self aModel)) ThisLigament)))
  \/ (_model (wired self aModel) <> None
      /\ NDEBUG = false
      /\ dlt d0 (get_resting_length (wired self aModel)) = false
      /\ connectToModel NDEBUG self aModel
         = AssertionFailed "restingLength > 0.0").
Proof.
  unfold connectToModel, cassert, wired.
  destruct (_model (Super_connectToModel
                      (includeAsSubComponent self Ref_GeometryPath) aModel))
    as [m|] eqn:Hm.
  - destruct NDEBUG.
    + right. left. repeat split; [congruence|now left].
    + destruct (dlt d0 _) eqn:Hpos.
      * right. left. repeat split; [congruence|now right].
      * right. right. repeat split; congruence.
  - left. split; reflexivity.
Qed.

(** X1. [connectToModel] stops at its assertion exactly when the build has
    assertions enabled ([NDEBUG] not defined), the generic connection step
    has assigned an owning model and the resting length is not greater than
    zero; in every other case, and always in a build that defines
    [NDEBUG], it returns an element. *)
Theorem connectToModel_fails_iff
    (NDEBUG : bool) (self : Lig) (aModel : Model) :
  ((exists expression,
       connectToModel NDEBUG self aModel = AssertionFailed expression)
   <-> (NDEBUG = false
        /\ _model (wired self aModel) <> None
        /\ dlt d0 (get_resting_length (wired self aModel)) = false))
  /\ ((exists r, connectToModel NDEBUG self aModel = Returned r)
      <-> (NDEBUG = true
           \/ _model (wired self aModel) = None
           \/ dlt d0 (get_resting_length (wired self aModel)) = true)).
Proof.
  destruct (connectToModel_cases NDEBUG self aModel)
    as [[Hnull Hret]|[(Hm & Hok & Hret)|(Hm & Hon & Hbad & Hfail)]].
  - split; split.
    + intros [e He]. congruence.
    + intros (_ & Hm & _). contradiction.
    + intros _. right. now left.
    + intros _. eexists. exact Hret.
  - split; split.
    + intros [e He]. congruence.
    + intros (Hon & _ & Hbad). destruct Hok; congruence.
    + intros _. destruct Hok; [now left|right; now right].
    + intros _. eexists. exact Hret.
  - split; split.
    + intros _. repeat split; assumption.
    + intros _. eexists. exact Hfail.
    + intros [r Hr]. congruence.
    + intros [Hoff|[Hnull|Hpos]]; congruence.
Qed.


End ConnectMore.

(** ** The forces handed to the accumulator *)

Section ForceMore.

Context {D : Type} {ops : DoubleOps D}.
Context {State Body ScaleSet Model BodyForces GeneralizedForces : Type}.
Context {ext : Collaborators D State Body ScaleSet Model BodyForces}.

Local Abbreviation Lig := (Ligament D State Body Model).
Local Abbreviation World :=
  (ForceWorld D State Body Model BodyForces GeneralizedForces).

(** A reading of the accumulator that sees every application, in order. *)
Variable observe : BodyForces -> list (Body * Vec3 D * Vec3 D).
Hypothesis observe_apply :
  forall s b p f bf,
    observe (applyForceToPoint s b p f bf) = observe bf ++ [(b, p, f)].

Lemma applyForces_observed (s : State) (force : D)
    (PFDs : list (PointForceDirection D Body)) :
  forall bf,
    observe (applyForces s force PFDs bf)
    = observe bf ++ appliedForces force PFDs.
Proof.
  unfold applyForces, appliedForces.
  induction PFDs as [|pfd rest IH]; intros bf; cbn [fold_left map].
  - now rewrite app_nil_r.
  - rewrite IH, observe_apply, <- app_assoc. reflexivity.
Qed.

(** X3. One call of [computeForce] applies nothing when the path is slack,
    and otherwise applies exactly one force per point force direction of
    the path, in path order, each at the body and point of its direction
    and each equal to [getTension] times that direction; with no point
    force direction nothing is applied. *)
Theorem computeForce_applications (w : World) :
  observe (w_bodyForces (computeForce w))
  = observe (w_bodyForces w)
    ++ (if dle (getLength (w_self w) (w_state w))
             (get_resting_length (w_self w))
        then []
        else
          appliedForces (getTension (w_self w) (w_state w))
            (path_getPointForceDirections (get_GeometryPath (w_self w))
               (w_state w)))
  /\ List.length (observe (w_bodyForces (computeForce w)))
     = (List.length (observe (w_bodyForces w))
        + (if dle (getLength (w_self w) (w_state w))
                (get_resting_length (w_self w))
           then 0
           else
             List.length
               (path_getPointForceDirections (get_GeometryPath (w_self w))
                  (w_state w))))%nat
  /\ (path_getPointForceDirections (get_GeometryPath (w_self w)) (w_state w)
      = [] ->
      observe (w_bodyForces (computeForce w)) = observe (w_bodyForces w)).
Proof.
  destruct (dle (getLength (w_self w) (w_state w))
              (get_resting_length (w_self w))) eqn:Hguard.
  - rewrite (computeForce_slack w Hguard), app_nil_r, Nat.add_0_r.
    repeat split.
  - rewrite (computeForce_taut w Hguard), <- (getTension_taut _ _ Hguard).
    cbn [w_bodyForces]. rewrite applyForces_observed.
    split; [reflexivity|]. split.
    + rewrite length_app. unfold appliedForces. now rewrite length_map.
    + intros Hempty. rewrite Hempty. cbn. now rewrite app_nil_r.
Qed.

End ForceMore.

(** ** More on binary64 results *)

Section SpecFloatMore.

Local Open Scope Z_scope.

Lemma SFcompare_refl x : x <> S754_nan -> SFcompare x x = Some Eq.
Proof.
  destruct x as [s|s| |s m e]; intros Hx; try destruct s; cbn;
    try reflexivity; try (now elim Hx);
    now rewrite Z.compare_refl, Pcompare_refl.
Qed.

Lemma SFcompare_Gt_Lt x y :
  SFcompare x y = Some Gt -> SFcompare y x = Some Lt.
Proof.
  destruct x as [sx|sx| |sx mx ex], y as [sy|sy| |sy my ey];
    try destruct sx; try destruct sy; cbn; try discriminate; try reflexivity;
    rewrite (Z.compare_antisym ex ey), (ZC4 my mx);
    destruct (ex ?= ey); cbn; try discriminate; try reflexivity;
    destruct (Pos.compare_cont Eq mx my); cbn; try discriminate; reflexivity.
Qed.

Lemma SFcompare_defined x y :
  x <> S754_nan -> y <> S754_nan -> exists c, SFcompare x y = Some c.
Proof.
  destruct x as [sx|sx| |sx mx ex], y as [sy|sy| |sy my ey];
    intros Hx Hy; try (now elim Hx); try (now elim Hy); cbn; eauto.
Qed.

Lemma SFnonneg_of_leb x : SFleb (S754_zero false) x = true -> SFnonneg x.
Proof.
  destruct x as [s|s| |s m e]; cbn; try destruct s; try discriminate;
    reflexivity || exact (fun _ => I).
Qed.

Lemma SFmul_nonneg_l m e x :
  SFnonneg x -> SFnonneg (SFmul prec emax (S754_finite false m e) x).
Proof.
  destruct x as [s|s| |s mx ex]; cbn [SFnonneg]; intros Hx;
    try contradiction; try subst s; cbn [SFmul xorb SFnonneg]; auto.
  pose proof (binary_round_aux_sign false (Zpos (m * mx)) (e + ex) loc_Exact
                ltac:(lia)) as Hs.
  destruct (binary_round_aux prec emax false (Zpos (m * mx)) (e + ex)
              loc_Exact); cbn; auto.
Qed.

Lemma SFmul_nonneg_r m e x :
  SFnonneg x -> SFnonneg (SFmul prec emax x (S754_finite false m e)).
Proof.
  destruct x as [s|s| |s mx ex]; cbn [SFnonneg]; intros Hx;
    try contradiction; try subst s; cbn [SFmul xorb SFnonneg]; auto.
  pose proof (binary_round_aux_sign false (Zpos (mx * m)) (ex + e) loc_Exact
                ltac:(lia)) as Hs.
  destruct (binary_round_aux prec emax false (Zpos (mx * m)) (ex + e)
              loc_Exact); cbn; auto.
Qed.

Lemma SFadd_zero_nonneg x :
  SFnonneg x -> SFnonneg (SFadd prec emax x (S754_zero false)).
Proof.
  destruct x as [s|s| |s mx ex]; cbn [SFnonneg]; intros Hx;
    try contradiction; try subst s; cbn; auto.
  destruct s; exact I.
Qed.

End SpecFloatMore.

Lemma nan_spec (x : float) : is_nan x = true -> Prim2SF x = S754_nan.
Proof.
  unfold is_nan. rewrite FloatAxioms.eqb_spec. unfold SFeqb. intros Hnan.
  destruct (Prim2SF x) as [s|s| |s m e] eqn:Hx; try reflexivity;
    rewrite SFcompare_refl in Hnan by discriminate; discriminate.
Qed.

Lemma not_nan_spec (x : float) : is_nan x = false -> Prim2SF x <> S754_nan.
Proof.
  unfold is_nan. rewrite FloatAxioms.eqb_spec. unfold SFeqb.
  intros Hnum Hx. rewrite Hx in Hnum. discriminate.
Qed.

Lemma positive_not_nan (x : float) :
  PrimFloat.ltb 0 x = true -> Prim2SF x <> S754_nan.
Proof.
  intros Hpos Hx. rewrite FloatAxioms.ltb_spec, Hx in Hpos. discriminate.
Qed.

(** Two numbers that are not NaN compare: [a <= b] or [b < a]. *)
Lemma not_slack_taut (len rl : float) :
  Prim2SF len <> S754_nan ->
  Prim2SF rl <> S754_nan ->
  PrimFloat.leb len rl = false ->
  PrimFloat.ltb rl len = true.
Proof.
  intros Hlen Hrl. rewrite FloatAxioms.leb_spec, FloatAxioms.ltb_spec.
  unfold SFleb, SFltb.
  destruct (SFcompare_defined _ _ Hlen Hrl) as [c Hc]. rewrite Hc.
  destruct c; try discriminate. intros _.
  now rewrite (SFcompare_Gt_Lt _ _ Hc).
Qed.

Lemma nonneg_spec (x : float) :
  PrimFloat.leb 0 x = true -> SFnonneg (Prim2SF x).
Proof.
  rewrite FloatAxioms.leb_spec. apply SFnonneg_of_leb.
Qed.

(** The product of a non-negative number, or plus infinity, with a positive
    finite one, in either order, and its sum with zero, are non-negative. *)
Lemma mul_nonneg_l (a x : float) :
  PrimFloat.ltb 0 a = true -> PrimFloat.ltb a infinity = true ->
  PrimFloat.leb 0 x = true ->
  PrimFloat.leb 0 (PrimFloat.mul a x) = true.
Proof.
  intros Hpos Hfin Hx.
  destruct (finite_positive_cases a Hpos Hfin) as (m & e & Ha).
  rewrite FloatAxioms.leb_spec, FloatAxioms.mul_spec, Ha.
  apply SFleb_zero_nonneg, SFmul_nonneg_l, nonneg_spec, Hx.
Qed.

Lemma mul_nonneg_r (a x : float) :
  PrimFloat.ltb 0 a = true -> PrimFloat.ltb a infinity = true ->
  PrimFloat.leb 0 x = true ->
  PrimFloat.leb 0 (PrimFloat.mul x a) = true.
Proof.
  intros Hpos Hfin Hx.
  destruct (finite_positive_cases a Hpos Hfin) as (m & e & Ha).
  rewrite FloatAxioms.leb_spec, FloatAxioms.mul_spec, Ha.
  apply SFleb_zero_nonneg, SFmul_nonneg_r, nonneg_spec, Hx.
Qed.

Lemma add_zero_nonneg (x : float) :
  PrimFloat.leb 0 x = true -> PrimFloat.leb 0 (PrimFloat.add x 0) = true.
Proof.
  intros Hx. rewrite FloatAxioms.leb_spec, FloatAxioms.add_spec.
  apply SFleb_zero_nonneg, SFadd_zero_nonneg, nonneg_spec, Hx.
Qed.

(** What is less than something is less than plus infinity. *)
Lemma below_is_finite (a b : float) :
  PrimFloat.ltb 0 a = true -> PrimFloat.ltb a b = true ->
  PrimFloat.ltb a infinity = true.
Proof.
  intros Hpos Hlt. rewrite FloatAxioms.ltb_spec in *.
  destruct (positive_cases a ltac:(now rewrite FloatAxioms.ltb_spec))
    as [Ha|(m & e & Ha)]; rewrite Ha in *.
  - destruct (Prim2SF b) as [s|s| |s mb eb]; try destruct s; discriminate.
  - reflexivity.
Qed.

(** ** Edge cases of the force and of the rescaling, in binary64 *)

Section Binary64More.

Context {State Body ScaleSet Model BodyForces GeneralizedForces : Type}.
Context {ext : Collaborators float State Body ScaleSet Model BodyForces}.

Local Abbreviation Lig := (Ligament float State Body Model).

(** X8. A linear-stiffness ligament never pushes, bit for bit: after
    [setLinearStiffness(K, L0)] with [L0 > 0] and a finite [K > 0], at every
    state whose path length is not NaN the tension compares greater than or
    equal to zero, so it is neither negative nor NaN. *)
Theorem linear_spring_never_negative (self : Lig) (K L0 : float) (s : State) :
  PrimFloat.ltb 0 L0 = true ->
  PrimFloat.ltb 0 K = true ->
  PrimFloat.ltb K infinity = true ->
  is_nan (getLength self s) = false ->
  PrimFloat.leb 0 (getTension (setLinearStiffness self K L0) s) = true.
Proof.
  intros HL0 HK HKfin Hlen.
  destruct (PrimFloat.leb (getLength self s) L0) eqn:Hguard.
  - now rewrite getTension_slack.
  - pose proof (not_slack_taut _ _ (not_nan_spec _ Hlen)
                  (positive_not_nan _ HL0) Hguard) as Htaut.
    rewrite getTension_taut by exact Hguard.
    unfold strainOf, setLinearStiffness, calcValue, LinearFunction_calcValue.
    cbn [getForceLengthCurve get_resting_length get_pcsa_force getLength
         get_GeometryPath prop_GeometryPath
         prop_force_length_curve prop_resting_length prop_pcsa_force
         set_pcsa_force set_resting_length set_force_length_curve].
    rewrite d0_binary64.
    apply (mul_nonneg_r K _ HK HKfin), add_zero_nonneg.
    apply (mul_nonneg_l L0 _ HL0 (below_is_finite _ _ HL0 Htaut)).
    now apply strain_nonneg_binary64.
Qed.

Lemma nan_strain (len rl : float) :
  is_nan len = true \/ is_nan rl = true ->
  PrimFloat.leb len rl = false
  /\ PrimFloat.div (PrimFloat.sub len rl) rl = nan.
Proof.
  intros Hnan. split.
  - rewrite FloatAxioms.leb_spec.
    destruct Hnan as [H|H]; rewrite (nan_spec _ H);
      [|destruct (Prim2SF len)]; reflexivity.
  - apply Prim2SF_inj.
    rewrite FloatAxioms.div_spec, FloatAxioms.sub_spec.
    destruct Hnan as [H|H]; rewrite !(nan_spec _ H).
    + destruct (Prim2SF rl); reflexivity.
    + destruct (Prim2SF len); reflexivity.
Qed.

(** X9. A NaN is never slack.  When the path length or the resting length
    is NaN, the slack test is false, so neither method takes its early
    return: [getTension] forms the strain, which is NaN, and returns the
    curve at NaN times the force scale, whatever that product is, and
    [computeForce] distributes that same value. *)
Theorem nan_is_not_slack
    (w : ForceWorld float State Body Model BodyForces GeneralizedForces) :
  is_nan (getLength (w_self w) (w_state w)) = true
  \/ is_nan (get_resting_length (w_self w)) = true ->
  PrimFloat.leb (getLength (w_self w) (w_state w))
    (get_resting_length (w_self w)) = false
  /\ strainOf (w_self w) (w_state w) = nan
  /\ getTension (w_self w) (w_state w)
     = PrimFloat.mul (calcValue (getForceLengthCurve (w_self w)) nan)
         (get_pcsa_force (w_self w))
  /\ w_bodyForces (computeForce w)
     = applyForces (w_state w)
         (PrimFloat.mul (calcValue (getForceLengthCurve (w_self w)) nan)
            (get_pcsa_force (w_self w)))
         (path_getPointForceDirections (get_GeometryPath (w_self w))
            (w_state w))
         (w_bodyForces w).
Proof.
  intros Hnan. destruct (nan_strain _ _ Hnan) as [Hguard Hstrain].
  assert (Hs : strainOf (w_self w) (w_state w) = nan) by exact Hstrain.
  split; [exact Hguard|]. split; [exact Hs|]. split.
  - rewrite getTension_taut by exact Hguard. now rewrite Hs.
  - rewrite computeForce_taut by exact Hguard. cbn [w_bodyForces].
    now rewrite Hs.
Qed.

(** X10. In a build with assertions enabled, once [connectToModel] has
    returned an element owned by a model, the division in the strain is
    safe: at every state whose path length is not NaN, either the path is
    slack and the tension is zero, or the path is longer than the positive
    resting length, the strain compares greater than or equal to zero and
    the tension is the curve at it times the force scale. *)
Theorem connected_ligament_strain_safe
    (self r : Lig) (aModel : Model) (s : State) :
  connectToModel false self aModel = Returned r ->
  _model r <> None ->
  is_nan (getLength r s) = false ->
  (PrimFloat.leb (getLength r s) (get_resting_length r) = true
   /\ getTension r s = 0%float)
  \/ (PrimFloat.ltb 0 (get_resting_length r) = true
      /\ PrimFloat.ltb (get_resting_length r) (getLength r s) = true
      /\ PrimFloat.leb 0 (strainOf r s) = true
      /\ getTension r s
         = PrimFloat.mul (calcValue (getForceLengthCurve r) (strainOf r s))
             (get_pcsa_force r)).
Proof.
  intros Hret Hown Hlen.
  assert (Hpos : PrimFloat.ltb 0 (get_resting_length r) = true).
  { destruct (connectToModel_cases false self aModel)
      as [[Hnull Hr]|[(Hm & Hok & Hr)|(Hm & Hon & Hbad & Hfail)]];
      rewrite Hret in *; try discriminate; injection Hr as ->.
    - contradiction.
    - destruct Hok as [Hoff|Hpos]; [discriminate|exact Hpos]. }
  destruct (PrimFloat.leb (getLength r s) (get_resting_length r)) eqn:Hguard.
  - left. split; [reflexivity|]. now rewrite getTension_slack.
  - right.
    pose proof (not_slack_taut _ _ (not_nan_spec _ Hlen)
                  (positive_not_nan _ Hpos) Hguard) as Htaut.
    repeat split; try assumption.
    + now apply strain_nonneg_binary64.
    + now rewrite getTension_taut.
Qed.

End Binary64More.

Section RescaleOnce.

Context {State Body ScaleSet Model BodyForces : Type}.
Context {ext : Collaborators float State Body ScaleSet Model BodyForces}.

Local Abbreviation Lig := (Ligament float State Body Model).

(** The path's own [postScale] does not write the pre-scale slot. *)
Hypothesis path_postScale_keeps_slot :
  forall (path : GeometryPath float State Body) s sc,
    getPreScaleLength (GeometryPath_postScale path s sc) s
    = getPreScaleLength path s.

(** X11. The pre-scale length is used once.  After one [postScale], the
    slot read at the same state holds nothing greater than zero, so a
    further [postScale] at that state, with any scale set, leaves the
    resting length as the first one set it, until [preScale] records a
    length again. *)
Theorem postScale_rescales_once (self : Lig) (s : State) (sc sc' : ScaleSet) :
  PrimFloat.ltb 0
    (getPreScaleLength (get_GeometryPath (postScale self s sc)) s) = false
  /\ get_resting_length (postScale (postScale self s sc) s sc')
     = get_resting_length (postScale self s sc).
Proof.
  assert (Hslot :
    PrimFloat.ltb 0
      (getPreScaleLength (get_GeometryPath (postScale self s sc)) s)
    = false).
  { destruct (PrimFloat.ltb 0
                (getPreScaleLength
                   (GeometryPath_postScale (get_GeometryPath self) s sc) s))
      eqn:Hpre.
    - rewrite postScale_rescaled by exact Hpre. reflexivity.
    - rewrite postScale_untouched by exact Hpre. exact Hpre. }
  split; [exact Hslot|].
  rewrite (postScale_untouched (postScale self s sc) s sc'); [reflexivity|].
  rewrite path_postScale_keeps_slot. exact Hslot.
Qed.

End RescaleOnce.

(** X12. The table of the default curve is a valid spline input as the
    compiler reads it: the declared number of points is the length of both
    arrays, the abscissae strictly increase, and the ordinates never
    decrease and stay between 0 and 2. *)
Theorem default_curve_table_wellformed :
  Z.of_nat (List.length (forceLengthCurveX (D := float)))
  = forceLengthCurvePoints
  /\ Z.of_nat (List.length (forceLengthCurveY (D := float)))
     = forceLengthCurvePoints
  /\ StronglySorted (fun a b => PrimFloat.ltb a b = true)
       (forceLengthCurveX (D := float))
  /\ StronglySorted (fun a b => PrimFloat.leb a b = true)
       (forceLengthCurveY (D := float))
  /\ Forall (fun y => PrimFloat.leb 0 y = true /\ PrimFloat.leb y 2 = true)
       (forceLengthCurveY (D := float)).
Proof.
  repeat split; try reflexivity;
    repeat (constructor; try (vm_compute; reflexivity));
    try (split; vm_compute; reflexivity).
Qed.

(** ** The further properties at concrete inputs *)


(** A taut ligament on the bench applies two forces, 24 along each of the
    two directions of the straight path. *)
Lemma computeForce_applications_witness :
  w_bodyForces
    (computeForce (ext := bench)
       (benchWorld (benchLigament 2 10 (LinearFunction 1 1)) 4.8))
  = [ (0%nat, mkVec3 0 0 0, mkVec3 (-24) 0 0);
      (1%nat, mkVec3 0 0 0, mkVec3 24 0 0) ].
Proof.
  destruct (computeForce_applications (ext := bench) (fun bf => bf)
              (fun _ _ _ _ _ => eq_refl)
              (benchWorld (benchLigament 2 10 (LinearFunction 1 1)) 4.8))
    as [Hlog _].
  rewrite Hlog. vm_compute. reflexivity.
Defined.

(** [setLinearStiffness(3, 2)], then [setRestingLength(1)], at length 4:
    the code returns [2 * ((4 - 1) / 1) * 3 = 18], not [3 * (4 - 1) = 9]. *)
Lemma setRestingLength_after_linear_witness :
  getTension (ext := bench)
    (fst (setRestingLength
            (setLinearStiffness (benchLigament 1 1 (LinearFunction 1 0)) 3 2)
            1)) 4
  = 18.
Proof.
  rewrite (setRestingLength_after_linear (ext := bench)
             (benchLigament 1 1 (LinearFunction 1 0)) 3 2 1 4 eq_refl).
  vm_compute. reflexivity.
Defined.

Lemma linear_spring_never_negative_witness :
  PrimFloat.leb 0
    (getTension (ext := bench)
       (setLinearStiffness (benchLigament 1 1 (LinearFunction 1 0)) 3 2) 4)
  = true.
Proof.
  apply (linear_spring_never_negative (ext := bench)
           (benchLigament 1 1 (LinearFunction 1 0)) 3 2 4); reflexivity.
Defined.

(** A NaN path length on the bench: not slack, tension NaN. *)
Lemma nan_is_not_slack_witness :
  let w := benchWorld (benchLigament 2 10 (LinearFunction 1 0)) nan in
  PrimFloat.leb (getLength (w_self w) (w_state w))
    (get_resting_length (w_self w)) = false
  /\ getTension (ext := bench) (w_self w) (w_state w) = nan.
Proof.
  cbv zeta.
  destruct (nan_is_not_slack (ext := bench)
              (benchWorld (benchLigament 2 10 (LinearFunction 1 0)) nan)
              (or_introl eq_refl))
    as (Hguard & _ & Htension & _).
  split; [exact Hguard|]. rewrite Htension. reflexivity.
Defined.

(** The connected bench ligament of resting length 2 at length 3. *)
Lemma connected_ligament_strain_safe_witness :
  exists r,
    connectToModel (ext := bench) false
      (benchLigament 2 10 (LinearFunction 1 0)) 7%nat = Returned r
    /\ PrimFloat.leb 0 (strainOf r 3) = true.
Proof.
  pose (r :=
    set_GeometryPath
      (wired (ext := bench) (benchLigament 2 10 (LinearFunction 1 0)) 7%nat)
      (setOwner
         (get_GeometryPath
            (wired (ext := bench) (benchLigament 2 10 (LinearFunction 1 0))
               7%nat))
         ThisLigament)).
  assert (Hret :
    connectToModel (ext := bench) false
      (benchLigament 2 10 (LinearFunction 1 0)) 7%nat = Returned r)
    by reflexivity.
  exists r. split; [exact Hret|].
  destruct (connected_ligament_strain_safe (ext := bench) _ r 7%nat 3 Hret
              ltac:(discriminate) eq_refl)
    as [[Hslack _]|(_ & _ & Hstrain & _)].
  - discriminate Hslack.
  - exact Hstrain.
Defined.

(** On the bench the path's [postScale] does nothing, so it keeps the slot:
    a second [postScale] after the pipeline leaves the resting length 4. *)
Lemma postScale_rescales_once_witness :
  let self :=
    scale (ext := bench)
      (preScale (ext := bench) (benchLigament 2 10 (LinearFunction 1 0)) 3 2)
      3 2 in
  get_resting_length
    (postScale (ext := bench) (postScale (ext := bench) self 3 2) 3 7)
  = 4.
Proof.
  cbv zeta.
  destruct (postScale_rescales_once (ext := bench) (fun _ _ _ => eq_refl)
              (scale (ext := bench)
                 (preScale (ext := bench)
                    (benchLigament 2 10 (LinearFunction 1 0)) 3 2) 3 2)
              3 2 7)
    as [_ Honce].
  rewrite Honce. reflexivity.
Defined.

(** ** Setting the resting length, then connecting *)

Section SetThenConnect.

Context {D : Type} {ops : DoubleOps D}.
Context {State Body ScaleSet Model BodyForces : Type}.
Context {ext : Collaborators D State Body ScaleSet Model BodyForces}.

Local Abbreviation Lig := (Ligament D State Body Model).

(** The generic connection step assigns the model it is given and leaves
    the resting length alone. *)
Hypothesis Super_assigns_model :
  forall (x : Lig) (m : Model), _model (Super_connectToModel x m) = Some m.
Hypothesis Super_keeps_resting_length :
  forall (x : Lig) (m : Model),
    get_resting_length (Super_connectToModel x m) = get_resting_length x.

(** X13. [setRestingLength] validates nothing: it stores any value and
    reports success.  The value is checked only when the element is
    connected to a model, and only in a build with assertions enabled:
    [connectToModel] stops at its assertion exactly when [NDEBUG] is not
    defined and the stored value is not greater than zero, and otherwise
    returns an element with that resting length. *)
Theorem setRestingLength_checked_on_connect
    (NDEBUG : bool) (self : Lig) (v : D) (aModel : Model) :
  snd (setRestingLength self v) = true
  /\ get_resting_length (fst (setRestingLength self v)) = v
  /\ ((exists expression,
          connectToModel NDEBUG (fst (setRestingLength self v)) aModel
          = AssertionFailed expression)
      <-> (NDEBUG = false /\ dlt d0 v = false))
  /\ (NDEBUG = true \/ dlt d0 v = true ->
      exists r,
        connectToModel NDEBUG (fst (setRestingLength self v)) aModel
        = Returned r
        /\ get_resting_length r = v).
Proof.
  split; [reflexivity|]. split; [reflexivity|].
  assert (Hrest :
    get_resting_length (wired (fst (setRestingLength self v)) aModel) = v).
  { unfold wired. rewrite Super_keeps_resting_length. reflexivity. }
  assert (Hm : _model (wired (fst (setRestingLength self v)) aModel)
               = Some aModel)
    by (unfold wired; apply Super_assigns_model).
  destruct (connectToModel_cases NDEBUG (fst (setRestingLength self v)) aModel)
    as [[Hnull _]|[(_ & Hok & Hret)|(_ & Hon & Hbad & Hfail)]].
  - congruence.
  - rewrite Hrest in Hok. split.
    + split; [intros [e He]; congruence|].
      intros [Hon Hbad]. destruct Hok; congruence.
    + intros _. eexists. split; [exact Hret|]. exact Hrest.
  - rewrite Hrest in Hbad. split.
    + split; [intros _; now split|intros _; eexists; exact Hfail].
    + intros [Hoff|Hpos]; congruence.
Qed.

End SetThenConnect.

(** On the bench: a resting length of -1 is stored with success; with
    assertions enabled it fails the assertion at connection, and with
    [NDEBUG] it connects; 2 is stored and connects in either build. *)
Lemma setRestingLength_checked_on_connect_witness :
  snd (setRestingLength (benchLigament 1 1 (LinearFunction 1 0)) (-1)) = true
  /\ connectToModel (ext := bench) false
       (fst (setRestingLength (benchLigament 1 1 (LinearFunction 1 0)) (-1)))
       7%nat
     = AssertionFailed "restingLength > 0.0"
  /\ (exists r,
        connectToModel (ext := bench) true
          (fst (setRestingLength (benchLigament 1 1 (LinearFunction 1 0))
                  (-1))) 7%nat
        = Returned r
        /\ get_resting_length r = (-1)%float)
  /\ exists r,
       connectToModel (ext := bench) false
         (fst (setRestingLength (benchLigament 1 1 (LinearFunction 1 0)) 2))
         7%nat
       = Returned r
       /\ get_resting_length r = 2.
Proof.
  destruct (setRestingLength_checked_on_connect (ext := bench)
              (fun _ _ => eq_refl) (fun _ _ => eq_refl) false
              (benchLigament 1 1 (LinearFunction 1 0)) 2 7%nat)
    as (_ & _ & _ & Hgood).
  destruct (setRestingLength_checked_on_connect (ext := bench)
              (fun _ _ => eq_refl) (fun _ _ => eq_refl) true
              (benchLigament 1 1 (LinearFunction 1 0)) (-1) 7%nat)
    as (_ & _ & _ & Hndebug).
  split; [reflexivity|]. split; [reflexivity|]. split.
  - apply Hndebug. now left.
  - apply Hgood. now right.
Defined.
